(** * Storefront components: cart-discount form and paginated blog list

    A shallow embedding of two custom elements of the theme:

    - [CartDiscount] (<cart-discount-component>): the apply/remove flow of
      discount codes, with its private helpers [#normalizeCode],
      [#existingDiscounts], [#newAbort], [#lockUI], [#unlockUI],
      [#hideAllErrors], [#showError];
    - [BlogPostsList] (<blog-posts-list>): the [loadNext] pager.

    Both handlers are [async] functions.  Each is split at its await points:
    the synchronous prefix runs up to the [fetch] call and either returns
    early or leaves a pending continuation (the closure of the suspended
    function); the settlement runs the rest of the body, including the
    [catch] and [finally] blocks, on the outcome of the request.  The
    component's private fields and the DOM nodes it touches are threaded as
    an explicit state. *)

From Stdlib Require Import Bool Arith List Ascii String Lia NArith QArith Permutation.
Import ListNotations.

Local Open Scope string_scope.
Local Open Scope list_scope.
Local Open Scope nat_scope.

Set Implicit Arguments.
Set Warnings "-register-all".

(** ** JavaScript strings

    Strings are sequences of characters of the ASCII range; a character
    outside it is carried along as its UTF-8 bytes, unchanged (it is
    neither white space nor case-mapped here). *)
Module JsString.

(** White space and line terminators of the ASCII range, as matched by
    [\s] and stripped by [trim]: TAB, LF, VT, FF, CR and SPACE. *)
Definition isSpace (c : ascii) : bool :=
  let n := nat_of_ascii c in
  ((9 <=? n) && (n <=? 13)) || (n =? 32).

Definition toUpperChar (c : ascii) : ascii :=
  let n := nat_of_ascii c in
  if (97 <=? n) && (n <=? 122) then ascii_of_nat (n - 32) else c.

Definition isEmpty (s : string) : bool :=
  match s with EmptyString => true | String _ _ => false end.

Fixpoint trimStart (s : string) : string :=
  match s with
  | EmptyString => EmptyString
  | String c r => if isSpace c then trimStart r else s
  end.

Fixpoint trimEnd (s : string) : string :=
  match s with
  | EmptyString => EmptyString
  | String c r =>
      let r' := trimEnd r in
      if isSpace c && isEmpty r' then EmptyString else String c r'
  end.

(** [s.trim()] *)
Definition trim (s : string) : string := trimEnd (trimStart s).

(** [s.replace(/\s+/g, '')]: every run of white space is deleted. *)
Fixpoint removeSpaces (s : string) : string :=
  match s with
  | EmptyString => EmptyString
  | String c r => if isSpace c then removeSpaces r else String c (removeSpaces r)
  end.

(** [s.replace(/^#/, '')]: one leading hash sign is deleted. *)
Definition stripHash (s : string) : string :=
  match s with
  | String "#"%char r => r
  | _ => s
  end.


(** [s.toUpperCase()] *)
Fixpoint toUpperCase (s : string) : string :=
  match s with
  | EmptyString => EmptyString
  | String c r => String (toUpperChar c) (toUpperCase r)
  end.


(** [parts.join(',')] *)
Fixpoint join (sep : string) (parts : list string) : string :=
  match parts with
  | [] => EmptyString
  | [p] => p
  | p :: rest => p ++ sep ++ join sep rest
  end.

(** [xs.includes(x)] on an array of strings. *)
Definition includes (xs : list string) (x : string) : bool :=
  existsb (String.eqb x) xs.

(** [xs.splice(xs.indexOf(x), 1)] when [x] occurs: the first occurrence
    is removed. *)
Fixpoint removeFirst (x : string) (xs : list string) : list string :=
  match xs with
  | [] => []
  | y :: r => if String.eqb x y then r else y :: removeFirst x r
  end.

End JsString.
Import JsString.

(** ** #normalizeCode (string argument)

    [raw.trim().replace(/\s+/g, '').replace(/^#/, '').toUpperCase()] *)
Definition normalizeCode (raw : string) : string :=
  toUpperCase (stripHash (removeSpaces (trim raw))).

(** [#normalizeCode] is also handed values that are not strings
    ([typeof raw !== 'string'] gives the empty code); see
    [Json.normalizeCodeOf]. *)

(** ** Completions and effects

    A JavaScript statement either completes normally or throws.  [Eff S A]
    is the state-and-exception monad the handlers run in: a thrown error
    keeps the state reached so far, and is identified by its [name]
    property ([None] when the thrown value has none). *)
Module Js.

Inductive completion (A : Type) : Type :=
| Normal (a : A)
| Throw (errName : option string).
Arguments Normal {A} a.
Arguments Throw {A} errName.

Definition Eff (S A : Type) : Type := S -> completion A * S.

Definition ret {S A} (a : A) : Eff S A := fun s => (Normal a, s).

Definition throw {S A} (errName : option string) : Eff S A :=
  fun s => (Throw errName, s).

Definition bind {S A B} (c : Eff S A) (k : A -> Eff S B) : Eff S B :=
  fun s =>
    match c s with
    | (Normal a, s') => k a s'
    | (Throw e, s') => (Throw e, s')
    end.

(** A pure computation that may throw, run inside [Eff]. *)
Definition lift {S A} (c : completion A) : Eff S A := fun s => (c, s).

Definition modify {S} (f : S -> S) : Eff S unit := fun s => (Normal tt, f s).

Definition gets {S A} (f : S -> A) : Eff S A := fun s => (Normal (f s), s).

(** [try { body } catch (err) { handler(err) } finally { fin }] where
    neither [handler] nor [fin] throws. *)
Definition tryCatchFinally {S} (body : Eff S unit)
           (handler : option string -> S -> S) (fin : S -> S) : S -> S :=
  fun s =>
    match body s with
    | (Normal _, s') => fin s'
    | (Throw e, s') => fin (handler e s')
    end.

End Js.
Import Js.

Declare Scope eff_scope.
Delimit Scope eff_scope with eff.
Notation "x <- c ;; k" := (Js.bind c (fun x => k))
  (at level 61, c at next level, right associativity) : eff_scope.
Notation "c ;;; k" := (Js.bind c (fun _ => k))
  (at level 61, right associativity) : eff_scope.

(** ** Values produced by [res.json()]

    [JSON.parse] builds null, booleans, numbers, strings, arrays and plain
    objects.  A number is kept as the exact rational its literal denotes
    (the components only test numbers with [typeof], [!] and comparisons).
    An object keeps its members in source order; a repeated key is
    overwritten by its last occurrence, as [JSON.parse] does. *)
Module Json.

Inductive json : Type :=
| JNull
| JBool (b : bool)
| JNum (q : Q)
| JStr (s : string)
| JArr (xs : list json)
| JObj (members : list (string * json)).

(** [!!v] *)
Definition truthy (v : json) : bool :=
  match v with
  | JNull => false
  | JBool b => b
  | JNum q => negb (Qeq_bool q 0)
  | JStr s => negb (isEmpty s)
  | JArr _ | JObj _ => true
  end.

(** [typeof v === 'object'] *)
Definition typeofObject (v : json) : bool :=
  match v with
  | JNull | JArr _ | JObj _ => true
  | JBool _ | JNum _ | JStr _ => false
  end.

(** Own property [k] of a parsed object: the last member named [k]. *)
Fixpoint ownProperty (k : string) (members : list (string * json)) : option json :=
  match members with
  | [] => None
  | (k', v) :: rest =>
      match ownProperty k rest with
      | Some v' => Some v'
      | None => if String.eqb k k' then Some v else None
      end
  end.

Definition digitValue (c : ascii) : option N :=
  let n := N_of_ascii c in
  if ((48 <=? n) && (n <=? 57))%N then Some (n - 48)%N else None.

Fixpoint parseDigits (acc : N) (s : string) : option N :=
  match s with
  | EmptyString => Some acc
  | String c r =>
      match digitValue c with
      | Some d => parseDigits (acc * 10 + d)%N r
      | None => None
      end
  end.

(** A property key that is a canonical array index: decimal digits
    without a leading zero (["0"] itself apart). *)
Definition arrayIndex (k : string) : option N :=
  match k with
  | EmptyString => None
  | String "0"%char EmptyString => Some 0%N
  | String "0"%char _ => None
  | _ => parseDigits 0 k
  end.

Fixpoint charAt (s : string) (i : nat) : option ascii :=
  match s, i with
  | EmptyString, _ => None
  | String c _, O => Some c
  | String _ r, S j => charAt r j
  end.

(** [v[k]] for a value [v] that is neither null nor undefined.  [None]
    stands for [undefined] and for the inherited members (methods and
    prototype objects), none of which is a string, a boolean or an
    array.  Arrays and strings answer to their indices and to
    [length]. *)
Definition getProperty (v : json) (k : string) : option json :=
  match v with
  | JObj members => ownProperty k members
  | JArr xs =>
      if String.eqb k "length" then Some (JNum (inject_Z (Z.of_nat (List.length xs))))
      else match arrayIndex k with
           | Some i => if (i <? N.of_nat (List.length xs))%N
                       then nth_error xs (N.to_nat i) else None
           | None => None
           end
  | JStr s =>
      if String.eqb k "length" then Some (JNum (inject_Z (Z.of_nat (String.length s))))
      else match arrayIndex k with
           | Some i => if (i <? N.of_nat (String.length s))%N
                       then option_map (fun c => JStr (String c EmptyString))
                                       (charAt s (N.to_nat i))
                       else None
           | None => None
           end
  | JNull | JBool _ | JNum _ => None
  end.

(** [v?.[k]] where [v] is itself the result of a property read. *)
Definition getOptional (v : option json) (k : string) : option json :=
  match v with
  | None | Some JNull => None
  | Some w => getProperty w k
  end.

(** [#normalizeCode(raw)] on any value: the empty code unless
    [typeof raw === 'string']. *)
Definition normalizeCodeOf (raw : option json) : string :=
  match raw with
  | Some (JStr s) => normalizeCode s
  | _ => EmptyString
  end.

(** [v === b] for a boolean literal [b]. *)
Definition strictEqBool (v : option json) (b : bool) : bool :=
  match v with
  | Some (JBool b') => Bool.eqb b' b
  | _ => false
  end.

(** [xs.some(f)] for a callback that may throw: stops at the first
    element on which [f] is true, or at the first throw. *)
Fixpoint some (f : json -> completion bool) (xs : list json) : completion bool :=
  match xs with
  | [] => Normal false
  | x :: rest =>
      match f x with
      | Throw e => Throw e
      | Normal true => Normal true
      | Normal false => some f rest
      end
  end.

End Json.
Import Json.

(** ** The end of an awaited [fetch]

    The promise rejects with an error of the given [name], or resolves
    with a response whose [ok] flag and parsed body are given ([None]:
    [res.json()] rejects). *)
Inductive outcome : Type :=
| Rejected (errName : option string)
| Responded (ok : bool) (body : option json).

(** ** <cart-discount-component> *)
Module CartDiscount.

(** An element matched by [.cart-discount__pill]: whether it is an
    [HTMLLIElement], and its [dataset.discountCode]. *)
Record pill : Type := Pill {
  isListItem : bool;
  discountCode : option string
}.

(** The form's [[type="submit"]] control. *)
Record button : Type := Button {
  disabled : bool;
  ariaBusy : bool
}.

(** The three required refs, each with or without the class [hidden]. *)
Record errorPanel : Type := ErrorPanel {
  cartDiscountErrorHidden : bool;
  cartDiscountErrorDiscountCodeHidden : bool;
  cartDiscountErrorShippingHidden : bool
}.

Inductive errorType : Type := DiscountCodeError | ShippingError.

(** The body posted to [Theme.routes.cart_update_url], with the abort
    controller whose signal the fetch listens to. *)
Record request : Type := Request {
  discount : string;
  sections : list string;
  signal : nat
}.

(** The component, the nodes of its subtree that the handlers read and
    write, and the traces of what it sent out.  Abort controllers are
    numbered in allocation order; [aborted] lists those whose [abort()]
    was called. *)
Record state : Type := State {
  sectionId : option string;          (* this.dataset.sectionId *)
  elementId : string;                 (* this.id *)
  pills : list pill;                  (* querySelectorAll('.cart-discount__pill') *)
  submit : option button;             (* form.querySelector('[type="submit"]') *)
  input : option string;              (* value of input[name="discount"] *)
  errors : errorPanel;                (* this.refs *)
  activeFetch : option nat;           (* #activeFetch *)
  submitBtn : bool;                   (* #submitBtn is not null *)
  statusLive : option string;         (* #statusLive.textContent, once created *)
  aborted : list nat;
  controllers : nat;
  requests : list request;            (* fetch calls *)
  dispatched : list (json * string);  (* DiscountUpdateEvent(data, this.id) *)
  morphed : list (string * string);   (* morphSection(sectionId, html) *)
  measured : nat                      (* cartPerformance.measureFromEvent *)
}.

Definition setInput (v : option string) (s : state) : state :=
  State (sectionId s) (elementId s) (pills s) (submit s) v (errors s) (activeFetch s)
        (submitBtn s) (statusLive s) (aborted s) (controllers s) (requests s)
        (dispatched s) (morphed s) (measured s).
Definition setSubmit (v : option button) (s : state) : state :=
  State (sectionId s) (elementId s) (pills s) v (input s) (errors s) (activeFetch s)
        (submitBtn s) (statusLive s) (aborted s) (controllers s) (requests s)
        (dispatched s) (morphed s) (measured s).
Definition setErrors (v : errorPanel) (s : state) : state :=
  State (sectionId s) (elementId s) (pills s) (submit s) (input s) v (activeFetch s)
        (submitBtn s) (statusLive s) (aborted s) (controllers s) (requests s)
        (dispatched s) (morphed s) (measured s).
Definition setActiveFetch (v : option nat) (s : state) : state :=
  State (sectionId s) (elementId s) (pills s) (submit s) (input s) (errors s) v
        (submitBtn s) (statusLive s) (aborted s) (controllers s) (requests s)
        (dispatched s) (morphed s) (measured s).
Definition setSubmitBtn (v : bool) (s : state) : state :=
  State (sectionId s) (elementId s) (pills s) (submit s) (input s) (errors s) (activeFetch s)
        v (statusLive s) (aborted s) (controllers s) (requests s)
        (dispatched s) (morphed s) (measured s).
Definition setStatusLive (v : option string) (s : state) : state :=
  State (sectionId s) (elementId s) (pills s) (submit s) (input s) (errors s) (activeFetch s)
        (submitBtn s) v (aborted s) (controllers s) (requests s)
        (dispatched s) (morphed s) (measured s).
Definition setAborted (v : list nat) (s : state) : state :=
  State (sectionId s) (elementId s) (pills s) (submit s) (input s) (errors s) (activeFetch s)
        (submitBtn s) (statusLive s) v (controllers s) (requests s)
        (dispatched s) (morphed s) (measured s).
Definition setControllers (v : nat) (s : state) : state :=
  State (sectionId s) (elementId s) (pills s) (submit s) (input s) (errors s) (activeFetch s)
        (submitBtn s) (statusLive s) (aborted s) v (requests s)
        (dispatched s) (morphed s) (measured s).
Definition setRequests (v : list request) (s : state) : state :=
  State (sectionId s) (elementId s) (pills s) (submit s) (input s) (errors s) (activeFetch s)
        (submitBtn s) (statusLive s) (aborted s) (controllers s) v
        (dispatched s) (morphed s) (measured s).
Definition setDispatched (v : list (json * string)) (s : state) : state :=
  State (sectionId s) (elementId s) (pills s) (submit s) (input s) (errors s) (activeFetch s)
        (submitBtn s) (statusLive s) (aborted s) (controllers s) (requests s)
        v (morphed s) (measured s).
Definition setMorphed (v : list (string * string)) (s : state) : state :=
  State (sectionId s) (elementId s) (pills s) (submit s) (input s) (errors s) (activeFetch s)
        (submitBtn s) (statusLive s) (aborted s) (controllers s) (requests s)
        (dispatched s) v (measured s).
Definition setMeasured (v : nat) (s : state) : state :=
  State (sectionId s) (elementId s) (pills s) (submit s) (input s) (errors s) (activeFetch s)
        (submitBtn s) (statusLive s) (aborted s) (controllers s) (requests s)
        (dispatched s) (morphed s) v.

(** The browser's HTML parser, as the handler uses it:
    [new DOMParser().parseFromString(html, 'text/html')], then
    [getElementById('shopify-section-' + id)], then
    [querySelectorAll('.cart-discount__pill')] inside that section, or
    no element when the document has no such section. *)
Record env : Type := Env {
  sectionPills : string -> string -> list pill
}.

(** *** utils *)

(** [#newAbort]: aborts the controller in [#activeFetch], if any, and
    stores and returns a fresh one. *)
Definition newAbort (s : state) : nat * state :=
  let s1 := match activeFetch s with
            | Some c => setAborted (c :: aborted s) s
            | None => s
            end in
  let c := controllers s1 in
  (c, setActiveFetch (Some c) (setControllers (S c) s1)).

(** [#existingDiscounts] *)
Definition existingDiscounts (s : state) : list string :=
  flat_map (fun p => if isListItem p
                     then match discountCode p with
                          | Some c => [normalizeCode c]
                          | None => []
                          end
                     else []) (pills s).

(** [#lockUI(form, label)] *)
Definition lockUI (label : string) (s : state) : state :=
  let s1 := setSubmitBtn (match submit s with Some _ => true | None => false end) s in
  let s2 := if submitBtn s1
            then setSubmit (option_map (fun _ => Button true true) (submit s1)) s1
            else s1 in
  setStatusLive (Some label) s2.

(** [#unlockUI(label)] *)
Definition unlockUI (label : string) (s : state) : state :=
  let s1 := if submitBtn s
            then setSubmit (option_map (fun _ => Button false false) (submit s)) s
            else s in
  match statusLive s1 with
  | Some _ => setStatusLive (Some label) s1
  | None => s1
  end.

(** [#hideAllErrors] *)
Definition hideAllErrors (s : state) : state :=
  setErrors (ErrorPanel true true true) s.

(** [#showError(type)] *)
Definition showError (type : errorType) (s : state) : state :=
  let e := errors s in
  let e' := match type with
            | DiscountCodeError =>
                ErrorPanel false false (cartDiscountErrorShippingHidden e)
            | ShippingError =>
                ErrorPanel false (cartDiscountErrorDiscountCodeHidden e) false
            end in
  let s1 := setErrors e' s in
  match statusLive s1 with
  | Some _ => setStatusLive (Some EmptyString) s1
  | None => s1
  end.

(** *** handlers *)

(** The submit event handed to [applyDiscount]: whether [event.target]
    is the component's form. *)
Record submitEvent : Type := SubmitEvent {
  targetIsForm : bool
}.

(** The click or keydown event handed to [removeDiscount]: the key of a
    [KeyboardEvent], whether [event.target] is an [HTMLElement], and the
    result of [event.target.closest('.cart-discount__pill')]. *)
Record pillEvent : Type := PillEvent {
  key : option string;
  targetIsElement : bool;
  closestPill : option pill
}.

(** What the suspended [applyDiscount] keeps in its closure. *)
Record pending : Type := Pending {
  controller : nat;
  code : string;
  existing : list string
}.

(** [let data = {}; try { data = await res.json(); } catch {}] *)
Definition payload (body : option json) : json :=
  match body with
  | Some d => d
  | None => JObj []
  end.

(** [this.#normalizeCode(d.code) === code && d.applicable === flag] for
    an entry [d] that is not null. *)
Definition entryMatches (code : string) (flag : bool) (d : json) : bool :=
  String.eqb (normalizeCodeOf (getProperty d "code")) code
  && strictEqBool (getProperty d "applicable") flag.

(** [Array.isArray(data.discount_codes)
      ? data.discount_codes.some((d) =>
          this.#normalizeCode(d.code) === code && d.applicable === flag)
      : false]
    Reading [d.code] of a null entry throws a TypeError. *)
Definition codeFlagged (data : json) (code : string) (flag : bool) : completion bool :=
  match getProperty data "discount_codes" with
  | Some (JArr ds) =>
      some (fun d =>
              match d with
              | JNull => Throw (Some "TypeError")
              | _ => Normal (entryMatches code flag d)
              end) ds
  | _ => Normal false
  end.

(** [String(this.dataset.sectionId)] when the attribute is used as a key
    or an argument. *)
Definition sectionKey (s : state) : string :=
  match sectionId s with
  | Some k => k
  | None => "undefined"
  end.

(** The codes of the pills of the returned markup:
    [Array.from(pills).map((el) => el instanceof HTMLLIElement
       ? this.#normalizeCode(el.dataset.discountCode || '') : '')
     .filter(Boolean)]. *)
Definition nextCodes (E : env) (newHtml : string) (s : state) : list string :=
  filter (fun c => negb (isEmpty c))
         (map (fun el => if isListItem el
                         then normalizeCode (match discountCode el with
                                             | Some c => c
                                             | None => EmptyString
                                             end)
                         else EmptyString)
              (sectionPills E newHtml (sectionKey s))).

(** [nextCodes.length === existing.length &&
     nextCodes.every((c) => existing.includes(c))] *)
Definition noNewPill (next existing : list string) : bool :=
  (List.length next =? List.length existing) && forallb (includes existing) next.

Definition clearInput (s : state) : state :=
  setInput (option_map (fun _ => EmptyString) (input s)) s.

(** [document.dispatchEvent(new DiscountUpdateEvent(data, this.id))] and
    [morphSection(this.dataset.sectionId, html)].  Both belong to the
    theme's runtime: the calls are recorded in the order they are made, and
    what the listeners and the renderer do to the page is left out. *)
Definition dispatchDiscountUpdate (data : json) (s : state) : state :=
  setDispatched (dispatched s ++ [(data, elementId s)]) s.

Definition morphSection (html : string) (s : state) : state :=
  setMorphed (morphed s ++ [(sectionKey s, html)]) s.

(** [applyDiscount] up to [await fetch(...)]. *)
Definition applyDiscount_request (ev : submitEvent) (s : state) : state * option pending :=
  if negb (targetIsForm ev) then (s, None)
  else match sectionId s with
       | None => (s, None)
       | Some sid =>
           match input s with
           | None => (s, None)
           | Some value =>
               let code := normalizeCode value in
               if isEmpty code then (s, None)
               else
                 let existing := existingDiscounts s in
                 if includes existing code then (setInput (Some EmptyString) s, None)
                 else
                   let s1 := lockUI "Applying…" (hideAllErrors s) in
                   let (c, s2) := newAbort s1 in
                   let body := Request (join "," (existing ++ [code])) [sid] c in
                   (setRequests (requests s2 ++ [body]) s2, Some (Pending c code existing))
           end
       end.

(** The rest of the [try] block of [applyDiscount], from the settlement
    of the fetch on. *)
Definition applyDiscount_try (E : env) (p : pending) (out : outcome) : Eff state unit :=
  (match out with
   | Rejected e => throw e
   | Responded ok body =>
       let data := payload body in
       if negb ok || negb (truthy data) || negb (typeofObject data)
       then modify (showError DiscountCodeError)
       else
         notApplicable <- lift (codeFlagged data (code p) false) ;;
         if (notApplicable : bool)
         then modify clearInput ;;; modify (showError DiscountCodeError)
         else
           newHtml <- gets (fun s => getOptional (getProperty data "sections") (sectionKey s)) ;;
           match newHtml with
           | Some (JStr html) =>
               next <- gets (nextCodes E html) ;;
               applicable <- lift (codeFlagged data (code p) true) ;;
               if (applicable : bool) && noNewPill next (existing p)
               then modify (showError ShippingError) ;;; modify clearInput
               else modify (dispatchDiscountUpdate data) ;;;
                    modify (morphSection html) ;;;
                    modify clearInput
           | _ => modify clearInput
           end
   end)%eff.

(** [catch (err) { if (err?.name !== 'AbortError') this.#showError('discount_code'); }] *)
Definition applyDiscount_catch (errName : option string) (s : state) : state :=
  match errName with
  | Some n => if String.eqb n "AbortError" then s else showError DiscountCodeError s
  | None => showError DiscountCodeError s
  end.

(** [finally { this.#activeFetch = null; this.#unlockUI('');
               cartPerformance.measureFromEvent(...); }] *)
Definition applyDiscount_finally (s : state) : state :=
  let s1 := unlockUI EmptyString (setActiveFetch None s) in
  setMeasured (S (measured s1)) s1.

(** [applyDiscount] from the settlement of the fetch to its end. *)
Definition applyDiscount_settle (E : env) (p : pending) (out : outcome) : state -> state :=
  tryCatchFinally (applyDiscount_try E p out) applyDiscount_catch applyDiscount_finally.


(** [removeDiscount] up to [await fetch(...)]; the closure keeps only
    the controller. *)
Definition removeDiscount_request (ev : pillEvent) (s : state) : state * option nat :=
  let wrongKey := match key ev with
                  | Some k => negb (String.eqb k "Enter")
                  | None => false
                  end in
  if wrongKey then (s, None)
  else if negb (targetIsElement ev) then (s, None)
  else match sectionId s with
       | None => (s, None)
       | Some sid =>
           match closestPill ev with
           | None => (s, None)
           | Some pill =>
               if negb (isListItem pill) then (s, None)
               else
                 let code := normalizeCode (match discountCode pill with
                                            | Some c => c
                                            | None => EmptyString
                                            end) in
                 if isEmpty code then (s, None)
                 else
                   let existing := existingDiscounts s in
                   if negb (includes existing code) then (s, None)
                   else
                     let (c, s1) := newAbort s in
                     let body := Request (join "," (removeFirst code existing)) [sid] c in
                     (setRequests (requests s1 ++ [body]) s1, Some c)
           end
       end.

Definition removeDiscount_try (out : outcome) : Eff state unit :=
  (match out with
   | Rejected e => throw e
   | Responded ok body =>
       let data := payload body in
       if negb ok || negb (truthy data) || negb (typeofObject data)
       then ret tt
       else
         modify (dispatchDiscountUpdate data) ;;;
         html <- gets (fun s => getOptional (getProperty data "sections") (sectionKey s)) ;;
         match html with
         | Some (JStr h) => modify (morphSection h)
         | _ => ret tt
         end
   end)%eff.

(** [removeDiscount] from the settlement of the fetch to its end: the
    error is swallowed, and [finally { this.#activeFetch = null; }]. *)
Definition removeDiscount_settle (out : outcome) : state -> state :=
  tryCatchFinally (removeDiscount_try out) (fun _ s => s) (setActiveFetch None).

Definition removeDiscount (ev : pillEvent) (out : outcome) (s : state) : state :=
  match removeDiscount_request ev s with
  | (s1, Some _) => removeDiscount_settle out s1
  | (s1, None) => s1
  end.

(** *** Reading a response and a state

    The vocabulary of the properties below. *)




(** The request settled with an OK response that the handler reads as
    the object [data]. *)
Definition accepted (out : outcome) (data : json) : Prop :=
  exists body, out = Responded true body /\ data = payload body /\
               truthy data = true /\ typeofObject data = true.


(** The section markup of a response, as the handler looks it up. *)
Definition sectionMarkup (data : json) (s : state) : option json :=
  getOptional (getProperty data "sections") (sectionKey s).


Definition noErrorShown (s : state) : Prop :=
  errors s = ErrorPanel true true true.

Definition sameCodes (xs ys : list string) : Prop :=
  forall c, In c xs <-> In c ys.

(** The interface state that a settlement can touch: the submit control,
    the status text, the error panel, the input field and the handle of
    the pending operation. *)
Definition interface (s : state)
  : option button * option string * errorPanel * option string * option nat :=
  (submit s, statusLive s, errors s, input s, activeFetch s).

(** *** A cart drawer with one applied code *)

Definition drawer : state :=
  State (Some "cart-drawer") "cart-discount" [Pill true (Some "SAVE10")]
        (Some (Button false false)) (Some " #save20 ")
        (ErrorPanel true true true) None false None [] 0 [] [] [] 0.

Definition submitForm : submitEvent := SubmitEvent true.

Definition clickPill (c : string) : pillEvent :=
  PillEvent None true (Some (Pill true (Some c))).

Definition markupOld : string := "<ul><li data-discount-code=SAVE10></li></ul>".
Definition markupNew : string :=
  "<ul><li data-discount-code=SAVE10></li><li data-discount-code=SAVE20></li></ul>".

(** A parser that knows the two markups above. *)
Definition parser : env :=
  Env (fun html _ =>
         if String.eqb html markupOld then [Pill true (Some "SAVE10")]
         else if String.eqb html markupNew
              then [Pill true (Some "SAVE10"); Pill true (Some "SAVE20")]
              else []).

(** The drawer once the form has been submitted, and what the suspended
    call holds. *)
Definition suspended : state := fst (applyDiscount_request submitForm drawer).

Definition closure : pending := Pending 0 "SAVE20" ["SAVE10"].


Definition response (flag : bool) (html : string) : json :=
  JObj [("discount_codes",
         JArr [JObj [("code", JStr "SAVE10"); ("applicable", JBool true)];
               JObj [("code", JStr "save20"); ("applicable", JBool flag)]]);
        ("sections", JObj [("cart-drawer", JStr html)])].

End CartDiscount.

(** ** <blog-posts-list> *)
Module BlogPostsList.

(** A child of [.bpl__list]: a rendered post, the [.bpl__error] note or
    the [.bpl__empty] note. *)
Inductive child : Type :=
| Item (post : json)
| ErrorNote (text : string)
| EmptyNote (text : string).

(** The skeleton built by [connectedCallback]. *)
Record view : Type := View {
  children : list child;      (* #list.children *)
  statusText : string;        (* #status.textContent *)
  moreHidden : bool;          (* #btnMore has [hidden] *)
  sentinelHidden : bool;      (* #sentinel has [hidden] *)
  busyAttribute : bool        (* the element has [aria-busy] *)
}.

(** The URL handed to [fetch]. *)
Record pageRequest : Type := PageRequest {
  endpointOf : string;
  pageParam : nat;
  pageSizeParam : option Z
}.

(** The element: its data attributes, its rendered view, its private
    fields and the requests it has sent. *)
Record pager : Type := Pager {
  dataEndpoint : option string;   (* this.dataset.endpoint *)
  dataPageSize : option string;   (* this.dataset.pageSize *)
  dataEmpty : option string;      (* this.dataset.empty *)
  dataError : option string;      (* this.dataset.error *)
  ui : view;
  page : nat;                     (* #page *)
  loading : bool;                 (* #loading *)
  done : bool;                    (* #done *)
  fetched : list pageRequest      (* fetch calls *)
}.

Definition setUi (v : view) (s : pager) : pager :=
  Pager (dataEndpoint s) (dataPageSize s) (dataEmpty s) (dataError s) v
        (page s) (loading s) (done s) (fetched s).
Definition setPage (v : nat) (s : pager) : pager :=
  Pager (dataEndpoint s) (dataPageSize s) (dataEmpty s) (dataError s) (ui s)
        v (loading s) (done s) (fetched s).
Definition setLoading (v : bool) (s : pager) : pager :=
  Pager (dataEndpoint s) (dataPageSize s) (dataEmpty s) (dataError s) (ui s)
        (page s) v (done s) (fetched s).
Definition setDone (v : bool) (s : pager) : pager :=
  Pager (dataEndpoint s) (dataPageSize s) (dataEmpty s) (dataError s) (ui s)
        (page s) (loading s) v (fetched s).
Definition setFetched (v : list pageRequest) (s : pager) : pager :=
  Pager (dataEndpoint s) (dataPageSize s) (dataEmpty s) (dataError s) (ui s)
        (page s) (loading s) (done s) v.

Definition setChildren (v : list child) (u : view) : view :=
  View v (statusText u) (moreHidden u) (sentinelHidden u) (busyAttribute u).
Definition setStatusText (v : string) (u : view) : view :=
  View (children u) v (moreHidden u) (sentinelHidden u) (busyAttribute u).
Definition setMoreHidden (v : bool) (u : view) : view :=
  View (children u) (statusText u) v (sentinelHidden u) (busyAttribute u).
Definition setSentinelHidden (v : bool) (u : view) : view :=
  View (children u) (statusText u) (moreHidden u) v (busyAttribute u).
Definition setAriaBusy (v : bool) (u : view) : view :=
  View (children u) (statusText u) (moreHidden u) (sentinelHidden u) v.

Definition onUi (f : view -> view) (s : pager) : pager := setUi (f (ui s)) s.

(** What [loadNext] takes from its surroundings.  [#emitError] is called
    by [loadNext] but declared nowhere in the class: it is taken as a
    reporter that acts on the rendered view.  [urlParses] tells whether
    [new URL(endpoint, origin)] returns; it throws on a malformed
    endpoint.  [#renderItem] builds the node of a post from the optional
    template, and [loadNext] only sees whether it returns the node or
    throws.  [toNumber] is the numeric coercion that [<] applies to a
    [pageSize] that is not a number ([None] for NaN). *)
Record host : Type := Host {
  emitError : string -> view -> view;
  urlParses : string -> bool;
  renderItemThrows : json -> bool;
  toNumber : json -> option Q
}.

(** [this.endpoint]: [this.dataset.endpoint || ''] *)
Definition endpoint (s : pager) : string :=
  match dataEndpoint s with
  | Some e => e
  | None => EmptyString
  end.

Fixpoint leadingDigits (acc : option Z) (s : string) : option Z :=
  match s with
  | EmptyString => acc
  | String c r =>
      match digitValue c with
      | Some d =>
          leadingDigits
            (Some (10 * match acc with Some a => a | None => 0 end + Z.of_N d)%Z) r
      | None => acc
      end
  end.

(** [parseInt(s, 10)]: leading white space, an optional sign, then the
    longest run of digits; [None] is NaN. *)
Definition parseInt10 (s : string) : option Z :=
  match trimStart s with
  | String "-"%char r => option_map Z.opp (leadingDigits None r)
  | String "+"%char r => leadingDigits None r
  | t => leadingDigits None t
  end.

(** [this.pageSize]:
    [parseInt(this.dataset.pageSize || '0', 10) || undefined] *)
Definition pageSize (s : pager) : option Z :=
  let raw := match dataPageSize s with
             | Some t => if isEmpty t then "0" else t
             | None => "0"
             end in
  match parseInt10 raw with
  | Some z => if (z =? 0)%Z then None else Some z
  | None => None
  end.

(** [this.errorText] and [this.emptyText] *)
Definition errorText (s : pager) : string :=
  match dataError s with
  | Some t => if isEmpty t then "Something went wrong. Please try again." else t
  | None => "Something went wrong. Please try again."
  end.

Definition emptyText (s : pager) : string :=
  match dataEmpty s with
  | Some t => if isEmpty t then "No posts yet." else t
  | None => "No posts yet."
  end.

(** [#updateStatus(text)] *)
Definition updateStatus (text : string) (s : pager) : pager :=
  onUi (setStatusText text) s.

Definition isErrorNote (c : child) : bool :=
  match c with ErrorNote _ => true | _ => false end.

(** [#renderError(err)] *)
Definition renderError (s : pager) : pager :=
  let s1 := updateStatus (errorText s) s in
  let s2 := if existsb isErrorNote (children (ui s1))
            then s1
            else onUi (setChildren (children (ui s1) ++ [ErrorNote (errorText s1)])) s1 in
  onUi (setMoreHidden false) s2.

(** [#renderEmpty()] *)
Definition renderEmpty (s : pager) : pager :=
  let s1 := onUi (setChildren [EmptyNote (emptyText s)]) s in
  let s2 := onUi (setSentinelHidden true) (onUi (setMoreHidden true) s1) in
  updateStatus "No posts to display." s2.

(** [#renderItems(items)]: the posts before the first one on which
    [#renderItem] throws are appended. *)
Fixpoint renderItems (E : host) (items : list json) : Eff pager unit :=
  match items with
  | [] => ret tt
  | post :: rest =>
      if renderItemThrows E post then throw (Some "TypeError")
      else (modify (onUi (fun u => setChildren (children u ++ [Item post]) u)) ;;;
            renderItems E rest)%eff
  end.

(** [reset()] *)
Definition reset (s : pager) : pager :=
  let s1 := setDone false (setPage 1 s) in
  let s2 := onUi (setChildren []) s1 in
  onUi (setAriaBusy true) (updateStatus EmptyString s2).

(** [finally { this.#loading = false; this.removeAttribute('aria-busy'); }] *)
Definition loadNext_finally (s : pager) : pager :=
  onUi (setAriaBusy false) (setLoading false s).

(** [loadNext] up to [await fetch(...)]: the state it leaves, and the
    request it is suspended on, if any. *)
Definition loadNext_request (E : host) (s : pager) : pager * option pageRequest :=
  if loading s || done s then (s, None)
  else if isEmpty (endpoint s) then (onUi (emitError E "Missing data-endpoint") s, None)
  else
    let s1 := onUi (setAriaBusy true) (updateStatus "Loading…" (setLoading true s)) in
    if urlParses E (endpoint s1)
    then let r := PageRequest (endpoint s1) (page s1) (pageSize s1) in
         (setFetched (fetched s1 ++ [r]) s1, Some r)
    else (loadNext_finally (renderError s1), None).

(** [(total && rendered >= total) || items.length < pageSize] *)
Definition nothingLeft (E : host) (data : json) (own : option Z)
           (count rendered : nat) : bool :=
  let total := match getProperty data "total" with
               | Some (JNum q) => Some q
               | _ => None
               end in
  let n := inject_Z (Z.of_nat count) in
  let byTotal := match total with
                 | Some q => negb (Qeq_bool q 0) && Qle_bool q (inject_Z (Z.of_nat rendered))
                 | None => false
                 end in
  let lessThan (v : option Q) := match v with
                                 | Some q => negb (Qle_bool q n)
                                 | None => false
                                 end in
  let bySize := match getProperty data "pageSize" with
                | Some v =>
                    if truthy v
                    then match v with
                         | JNum q => lessThan (Some q)
                         | _ => lessThan (toNumber E v)
                         end
                    else match own with
                         | Some z => lessThan (Some (inject_Z z))
                         | None => false
                         end
                | None =>
                    match own with
                    | Some z => lessThan (Some (inject_Z z))
                    | None => false
                    end
                end in
  byTotal || bySize.

(** The rest of the [try] block of [loadNext]. *)
Definition loadNext_try (E : host) (out : outcome) : Eff pager unit :=
  (match out with
   | Rejected e => throw e
   | Responded false _ => throw (Some "Error")
   | Responded true None => throw (Some "SyntaxError")
   | Responded true (Some JNull) => throw (Some "TypeError")
   | Responded true (Some data) =>
       let items := match getProperty data "items" with
                    | Some (JArr xs) => xs
                    | _ => []
                    end in
       first <- gets (fun s => page s =? 1) ;;
       if (first : bool) && (List.length items =? 0)
       then modify renderEmpty ;;; modify (setDone true)
       else
         renderItems E items ;;;
         own <- gets pageSize ;;
         rendered <- gets (fun s => List.length (children (ui s))) ;;
         (if nothingLeft E data own (List.length items) rendered
          then modify (setDone true) ;;;
               modify (onUi (setMoreHidden true)) ;;;
               modify (onUi (setSentinelHidden true)) ;;;
               modify (updateStatus "All posts loaded.")
          else modify (onUi (setMoreHidden false)) ;;;
               modify (onUi (setSentinelHidden false)) ;;;
               modify (updateStatus EmptyString)) ;;;
         modify (fun s => setPage (page s + 1) s)
   end)%eff.

(** [loadNext] from the settlement of the fetch to its end. *)
Definition loadNext_settle (E : host) (out : outcome) : pager -> pager :=
  tryCatchFinally (loadNext_try E out) (fun _ => renderError) loadNext_finally.

(** The component together with the requests whose continuation has not
    run yet. *)
Record config : Type := Config {
  component : pager;
  inFlight : list pageRequest
}.

(** What can happen to a connected component: [loadNext] is called (by
    the button, the intersection observer or a script), the request in
    flight settles, or [reset] is called. *)
Inductive step (E : host) : config -> config -> Prop :=
| step_loadNext s fl :
    step E (Config s fl)
           (Config (fst (loadNext_request E s))
                   (fl ++ match snd (loadNext_request E s) with
                          | Some r => [r]
                          | None => []
                          end))
| step_settle s before r after out :
    step E (Config s (before ++ r :: after))
           (Config (loadNext_settle E out s) (before ++ after))
| step_reset s fl :
    step E (Config s fl) (Config (reset s) fl).

(** A freshly constructed element: [#page = 1], [#loading = false],
    [#done = false], nothing requested. *)
Definition fresh (c : config) : Prop :=
  page (component c) = 1 /\ loading (component c) = false /\
  done (component c) = false /\ fetched (component c) = [] /\ inFlight c = [].

Inductive reachable (E : host) : config -> Prop :=
| reachable_fresh c : fresh c -> reachable E c
| reachable_step c c' : reachable E c -> step E c c' -> reachable E c'.

(** While [#loading] is clear no request is in flight, and there is
    never more than one. *)
Definition oneAtATime (c : config) : Prop :=
  (loading (component c) = false -> inFlight c = []) /\
  List.length (inFlight c) <= 1.

(** *** A list in the middle of its first load *)

Definition plain : host :=
  Host (fun _ u => u) (fun _ => true)
      (fun post => match post with JNull => true | _ => false end)
      (fun _ => None).

Definition idle : pager :=
  Pager (Some "/blogs/news.json") (Some "12") None None
        (View [] EmptyString false true true) 1 false false [].

Definition firstPage : pageRequest := PageRequest "/blogs/news.json" 1 (Some 12%Z).

Definition busy : pager :=
  Pager (Some "/blogs/news.json") (Some "12") None None
        (View [] "Loading…" false true true) 1 true false [firstPage].

End BlogPostsList.

(** ** More of JavaScript's strings *)
Module JsText.

Definition toLowerChar (c : ascii) : ascii :=
  let n := nat_of_ascii c in
  if (65 <=? n) && (n <=? 90) then ascii_of_nat (n + 32) else c.

(** [s.toLowerCase()] *)
Fixpoint toLowerCase (s : string) : string :=
  match s with
  | EmptyString => EmptyString
  | String c r => String (toLowerChar c) (toLowerCase r)
  end.

(** [s.split(sep)] for a separator of one character: the pieces between
    the separators, of which there is always at least one. *)
Fixpoint splitOn (sep : ascii) (s : string) : list string :=
  match s with
  | EmptyString => [EmptyString]
  | String c r =>
      if Ascii.eqb c sep then EmptyString :: splitOn sep r
      else match splitOn sep r with
           | piece :: pieces => String c piece :: pieces
           | [] => [String c EmptyString]
           end
  end.



End JsText.
Import JsText.

(** ** Auto-closing <details>

    The script keeps the breakpoint mode it closes on, follows the window
    width on [resize], and on every click in the document closes the open
    [details[data-auto-close-details]] elements that the click is outside
    of. *)
Module AutoCloseDetails.

Definition BREAKPOINT : Z := 750.

Inductive mode : Type := Mobile | Desktop.

Definition modeName (m : mode) : string :=
  match m with
  | Mobile => "mobile"
  | Desktop => "desktop"
  end.

(** [w < BREAKPOINT ? 'mobile' : 'desktop'] *)
Definition modeOf (w : Z) : mode :=
  if (w <? BREAKPOINT)%Z then Mobile else Desktop.

(** A [<details>] element of the document: the node it is, the value of
    its [data-auto-close-details] attribute ([None] without the
    attribute), and whether it has [open]. *)
Record details : Type := Details {
  node : nat;
  autoClose : option string;
  isOpen : bool
}.

(** The variables of the script, the [<details>] elements of the document
    in document order, and whether its two listeners are still attached. *)
Record watcher : Type := Watcher {
  closingOn : mode;
  lastWidth : Z;
  document : list details;
  resizeBound : bool;
  clickBound : bool
}.

(** The script as it starts, in a window of width [w]. *)
Definition start (w : Z) (doc : list details) : watcher :=
  Watcher (modeOf w) w doc true true.

(** [updateMode], with [window.innerWidth] at the time of the event. *)
Definition updateMode (w : Z) (s : watcher) : watcher :=
  let crossed := ((w <? BREAKPOINT)%Z && (BREAKPOINT <=? lastWidth s)%Z)
                 || ((BREAKPOINT <=? w)%Z && (lastWidth s <? BREAKPOINT)%Z) in
  Watcher (if crossed then modeOf w else closingOn s) w
          (document s) (resizeBound s) (clickBound s).

(** A [resize] event reaches [updateMode] while the listener is attached. *)
Definition resize (w : Z) (s : watcher) : watcher :=
  if resizeBound s then updateMode w s else s.

(** [(el.getAttribute(ATTR) || '').split(',').map(s => s.trim().toLowerCase())] *)
Definition modes (attribute : option string) : list string :=
  map (fun piece => toLowerCase (trim piece))
      (splitOn ","%char (match attribute with
                         | Some v => v
                         | None => EmptyString
                         end)).

(** A click, by the [<details>] nodes that contain a node of its path
    ([event.composedPath()], or the target alone). *)
Record click : Type := Click {
  around : list nat
}.

(** [path.some((n) => n instanceof Node && el.contains(n))] *)
Definition clickedInside (ev : click) (el : details) : bool :=
  existsb (Nat.eqb (node el)) (around ev).

(** One turn of the loop over [details[ATTR][open]]; an element that the
    selector does not match is not visited. *)
Definition visit (closing : mode) (ev : click) (el : details) : details :=
  match autoClose el with
  | None => el
  | Some _ =>
      if negb (isOpen el) then el
      else
        let ms := modes (autoClose el) in
        if negb (includes ms (modeName closing)) && negb (includes ms "always") then el
        else if clickedInside ev el then el
        else Details (node el) (autoClose el) false
  end.

(** The click listener of the document. *)
Definition onClick (ev : click) (s : watcher) : watcher :=
  if clickBound s
  then Watcher (closingOn s) (lastWidth s) (map (visit (closingOn s) ev) (document s))
               (resizeBound s) (clickBound s)
  else s.

(** [window.AutoCloseDetails.stop()] *)
Definition stop (s : watcher) : watcher :=
  Watcher (closingOn s) (lastWidth s) (document s) false false.

(** What can reach the script. *)
Inductive event : Type :=
| Resized (w : Z)
| Clicked (ev : click)
| Stopped.

Definition react (s : watcher) (e : event) : watcher :=
  match e with
  | Resized w => resize w s
  | Clicked ev => onClick ev s
  | Stopped => stop s
  end.

(** The width the window has after the events [es], having had [w]. *)
Fixpoint widthAfter (w : Z) (es : list event) : Z :=
  match es with
  | [] => w
  | Resized w' :: rest => widthAfter w' rest
  | _ :: rest => widthAfter w rest
  end.

(** *** A page with two menus *)

Definition menus : list details :=
  [Details 1 (Some "Mobile, always") true;
   Details 2 (Some "desktop") true;
   Details 3 None true].

End AutoCloseDetails.

(** ** The cart-discount component over time

    The handlers of <cart-discount-component> as they can follow one
    another on one element: a submit or a pill activation runs up to its
    fetch, a pending call settles, the customer types. *)
Module CartDiscountTrace.
Import CartDiscount.

Inductive cartStep (E : env) : state -> state -> Prop :=
| cart_apply ev s :
    cartStep E s (fst (applyDiscount_request ev s))
| cart_apply_settle p out s :
    cartStep E s (applyDiscount_settle E p out s)
| cart_remove ev s :
    cartStep E s (fst (removeDiscount_request ev s))
| cart_remove_settle out s :
    cartStep E s (removeDiscount_settle out s)
| cart_type value s :
    cartStep E s (setInput (Some value) s).

(** A component that has not sent anything yet. *)
Definition installed (s : state) : Prop :=
  activeFetch s = None /\ aborted s = [] /\ controllers s = 0 /\ requests s = [].

Inductive cartReachable (E : env) : state -> Prop :=
| cart_installed s : installed s -> cartReachable E s
| cart_later s s' : cartReachable E s -> cartStep E s s' -> cartReachable E s'.

(** Controllers are handed out in order: those aborted and those given to
    requests are older than the next one, and the stored handle is a
    controller that has not been aborted. *)
Definition handlesSound (s : state) : Prop :=
  (forall c, In c (aborted s) -> c < controllers s) /\
  (forall c, activeFetch s = Some c -> c < controllers s /\ ~ In c (aborted s)) /\
  (forall r, In r (requests s) -> signal r < controllers s) /\
  NoDup (map signal (requests s)).

(** What a settlement of [applyDiscount] leaves alone, whatever its
    outcome: the page around the form and the bookkeeping of the
    controllers. *)
Definition sameSurroundings (s s' : state) : Prop :=
  sectionId s' = sectionId s /\ elementId s' = elementId s /\ pills s' = pills s /\
  submit s' = submit s /\ submitBtn s' = submitBtn s /\
  (statusLive s' = None <-> statusLive s = None) /\
  aborted s' = aborted s /\ controllers s' = controllers s /\
  requests s' = requests s /\ measured s' = measured s.

End CartDiscountTrace.

(** ** <blog-posts-list>: text and outcomes *)
Module BlogPostsListText.
Import BlogPostsList.

(** The replacement that [#escape] makes of one character: the
    ampersand, the two angle brackets, the double quote (34) and the
    apostrophe (39) become [&amp;], [&lt;], [&gt;], [&quot;] and
    [&#39;]. *)
Definition escapeChar (c : ascii) : string :=
  let n := nat_of_ascii c in
  if n =? 38 then "&amp;"
  else if n =? 60 then "&lt;"
  else if n =? 62 then "&gt;"
  else if n =? 34 then "&quot;"
  else if n =? 39 then "&#39;"
  else String c EmptyString.

(** [#escape(s)]: every character of the class above is replaced,
    [String(s).replace(/[...]/g, m => table[m])], on a string. *)
Fixpoint escape (s : string) : string :=
  match s with
  | EmptyString => EmptyString
  | String c r => escapeChar c ++ escape r
  end.

(** No character of [s] is one of [<], [>], the double quote and the
    apostrophe. *)
Fixpoint markupFree (s : string) : bool :=
  match s with
  | EmptyString => true
  | String c r =>
      let n := nat_of_ascii c in
      negb ((n =? 60) || (n =? 62) || (n =? 34) || (n =? 39)) && markupFree r
  end.

(** The reading of the five entities back into their characters; it is
    what a browser does with escaped text, and serves to tell that
    [escape] loses nothing. *)
Fixpoint unescape (s : string) : string :=
  match s with
  | EmptyString => EmptyString
  | String "&" (String "a" (String "m" (String "p" (String ";" r)))) =>
      String "&" (unescape r)
  | String "&" (String "l" (String "t" (String ";" r))) =>
      String "<" (unescape r)
  | String "&" (String "g" (String "t" (String ";" r))) =>
      String ">" (unescape r)
  | String "&" (String "q" (String "u" (String "o" (String "t" (String ";" r))))) =>
      String (ascii_of_nat 34) (unescape r)
  | String "&" (String "#" (String "3" (String "9" (String ";" r)))) =>
      String "'" (unescape r)
  | String c r => String c (unescape r)
  end.

(** The posts [posts] appended to the list, in order. *)
Definition appendItems (posts : list json) (s : pager) : pager :=
  onUi (fun u => setChildren (children u ++ map Item posts) u) s.

(** The request ended in one of the ways that [loadNext] throws on before
    it renders anything: the fetch rejected, the status is not OK, the
    body is not JSON, or it is [null]. *)
Definition failedLoad (out : outcome) : Prop :=
  match out with
  | Rejected _ => True
  | Responded false _ => True
  | Responded true None => True
  | Responded true (Some JNull) => True
  | Responded true (Some _) => False
  end.

(** [Array.isArray(data.items) ? data.items : []] *)
Definition itemsOf (data : json) : list json :=
  match getProperty data "items" with
  | Some (JArr xs) => xs
  | _ => []
  end.

(** What no part of [loadNext] writes: the data attributes and the list
    of the requests sent. *)
Definition sameAttributes (s s' : pager) : Prop :=
  dataEndpoint s' = dataEndpoint s /\ dataPageSize s' = dataPageSize s /\
  dataEmpty s' = dataEmpty s /\ dataError s' = dataError s /\
  fetched s' = fetched s.

End BlogPostsListText.

(** ** <accordion-custom> and <account-login-actions>: data attributes *)
Module AccordionCustom.

(** [#parseBool(val)] on a [dataset] entry ([None]: the attribute is
    absent): false for the empty value, otherwise whether the value in
    small letters is [true] or [1]. *)
Definition parseBool (val : option string) : bool :=
  match val with
  | None => false
  | Some v =>
      if isEmpty v then false
      else let s := toLowerCase v in String.eqb s "true" || String.eqb s "1"
  end.

End AccordionCustom.

Module AccountLoginActions.

(** [#parseBool(v, fallback)]: the fallback for an absent attribute,
    otherwise whether the trimmed value in small letters is [true], [1]
    or empty. *)
Definition parseBool (v : option string) (fallback : bool) : bool :=
  match v with
  | None => fallback
  | Some t =>
      let s := toLowerCase (trim t) in
      String.eqb s "true" || String.eqb s "1" || String.eqb s EmptyString
  end.

End AccountLoginActions.

(** * Properties *)

(** ** Normalisation of discount codes *)
Module NormalizeFacts.
















Example normalizeCode_inner_space : normalizeCode "sa ve	10" = "SAVE10".
Proof. reflexivity. Qed.

End NormalizeFacts.

(** ** Property reads on parsed values *)
Module JsonFacts.

Example repeated_key_last_wins :
  getProperty (JObj [("a", JBool true); ("a", JBool false)]) "a" = Some (JBool false).
Proof. reflexivity. Qed.

Example missing_key_undefined : getProperty (JObj [("a", JNull)]) "b" = None.
Proof. reflexivity. Qed.

Example string_index : getProperty (JStr "abc") "1" = Some (JStr "b").
Proof. reflexivity. Qed.

Example array_index_canonical :
  getProperty (JArr [JNull; JBool true]) "1" = Some (JBool true) /\
  getProperty (JArr [JNull; JBool true]) "01" = None /\
  getProperty (JArr [JNull; JBool true]) "2" = None.
Proof. repeat split. Qed.

Example optional_read_of_null : getOptional (Some JNull) "cart-drawer" = None.
Proof. reflexivity. Qed.

Example normalizeCodeOf_number : normalizeCodeOf (Some (JNum 10)) = EmptyString.
Proof. reflexivity. Qed.

End JsonFacts.

(** ** The cart-discount handlers *)
Module CartDiscountFacts.
Import CartDiscount.

(** *** What each helper leaves alone *)

Ltac by_cases :=
  intros; cbn;
  repeat match goal with
         | |- context [match ?x with _ => _ end] => destruct x; cbn
         end;
  try reflexivity.

Lemma input_unlockUI l s : input (unlockUI l s) = input s.
Proof. unfold unlockUI. by_cases. Qed.
Lemma errors_unlockUI l s : errors (unlockUI l s) = errors s.
Proof. unfold unlockUI. by_cases. Qed.
Lemma dispatched_unlockUI l s : dispatched (unlockUI l s) = dispatched s.
Proof. unfold unlockUI. by_cases. Qed.
Lemma morphed_unlockUI l s : morphed (unlockUI l s) = morphed s.
Proof. unfold unlockUI. by_cases. Qed.
Lemma requests_unlockUI l s : requests (unlockUI l s) = requests s.
Proof. unfold unlockUI. by_cases. Qed.
Lemma activeFetch_unlockUI l s : activeFetch (unlockUI l s) = activeFetch s.
Proof. unfold unlockUI. by_cases. Qed.

Lemma input_finally s : input (applyDiscount_finally s) = input s.
Proof. unfold applyDiscount_finally. cbn. now rewrite input_unlockUI. Qed.
Lemma errors_finally s : errors (applyDiscount_finally s) = errors s.
Proof. unfold applyDiscount_finally. cbn. now rewrite errors_unlockUI. Qed.
Lemma dispatched_finally s : dispatched (applyDiscount_finally s) = dispatched s.
Proof. unfold applyDiscount_finally. cbn. now rewrite dispatched_unlockUI. Qed.
Lemma morphed_finally s : morphed (applyDiscount_finally s) = morphed s.
Proof. unfold applyDiscount_finally. cbn. now rewrite morphed_unlockUI. Qed.
Lemma requests_finally s : requests (applyDiscount_finally s) = requests s.
Proof. unfold applyDiscount_finally. cbn. now rewrite requests_unlockUI. Qed.
Lemma activeFetch_finally s : activeFetch (applyDiscount_finally s) = None.
Proof. unfold applyDiscount_finally. cbn. now rewrite activeFetch_unlockUI. Qed.

(** [finally] always hands the interface back: whatever the settlement
    was, the submit control that [#lockUI] disabled is enabled again. *)
Lemma submit_finally s :
  submitBtn s = true ->
  submit (applyDiscount_finally s) = option_map (fun _ => Button false false) (submit s).
Proof. unfold applyDiscount_finally, unlockUI. intros H. cbn. rewrite H. by_cases. Qed.

Lemma statusLive_finally s :
  statusLive (applyDiscount_finally s) = option_map (fun _ => EmptyString) (statusLive s).
Proof.
  destruct s as [? ? ? ? ? ? ? btn live ? ? ? ? ? ?].
  unfold applyDiscount_finally, unlockUI. destruct btn, live; reflexivity.
Qed.

Lemma input_showError t s : input (showError t s) = input s.
Proof. unfold showError. by_cases. Qed.
Lemma dispatched_showError t s : dispatched (showError t s) = dispatched s.
Proof. unfold showError. by_cases. Qed.
Lemma morphed_showError t s : morphed (showError t s) = morphed s.
Proof. unfold showError. by_cases. Qed.
Lemma requests_showError t s : requests (showError t s) = requests s.
Proof. unfold showError. by_cases. Qed.

Create Rewrite HintDb cart.
#[local] Hint Rewrite input_finally errors_finally dispatched_finally morphed_finally
  requests_finally activeFetch_finally input_showError dispatched_showError
  morphed_showError requests_showError : cart.


(** *** The applicability scan *)







Example null_entry_throws :
  codeFlagged (JObj [("discount_codes", JArr [JNull])]) "SAVE20" false
  = Throw (Some "TypeError").
Proof. reflexivity. Qed.

Example first_match_stops_the_scan :
  codeFlagged (JObj [("discount_codes",
                      JArr [JObj [("code", JStr " save20"); ("applicable", JBool false)];
                            JNull])]) "SAVE20" false
  = Normal true.
Proof. reflexivity. Qed.

(** The only error the scan throws is the TypeError of a null entry. *)
Lemma codeFlagged_throws data code flag e :
  codeFlagged data code flag = Throw e -> e = Some "TypeError".
Proof.
  unfold codeFlagged.
  destruct (getProperty data "discount_codes") as [[| | | | ds |]|]; try discriminate.
  induction ds as [|d ds IH]; simpl; [discriminate|].
  destruct d; try (intros H; now inversion H);
    (destruct (entryMatches code flag _); [discriminate | apply IH]).
Qed.


(** *** The paths of a settlement *)

Ltac run_try :=
  unfold applyDiscount_settle, tryCatchFinally, applyDiscount_try,
    bind, lift, modify, gets.

Lemma settle_rejected E p e s :
  applyDiscount_settle E p (Rejected e) s
  = applyDiscount_finally (applyDiscount_catch e s).
Proof. reflexivity. Qed.







(** Every settlement ends in one of six ways: silently (superseded),
    with the discount-code error and the input kept, with the
    discount-code error and the input emptied, as a success without
    markup, with the shipping error, or with a broadcast and a section
    replacement; the [finally] block closes each of them. *)
Lemma settle_taxonomy E p out s :
  let s' := applyDiscount_settle E p out s in
  s' = applyDiscount_finally s \/
  s' = applyDiscount_finally (showError DiscountCodeError s) \/
  s' = applyDiscount_finally (showError DiscountCodeError (clearInput s)) \/
  s' = applyDiscount_finally (clearInput s) \/
  s' = applyDiscount_finally (clearInput (showError ShippingError s)) \/
  exists data html,
    s' = applyDiscount_finally
           (clearInput (morphSection html (dispatchDiscountUpdate data s))).
Proof.
  cbv zeta. destruct out as [e | ok body].
  - rewrite settle_rejected. unfold applyDiscount_catch.
    destruct e as [n|]; [destruct (String.eqb n "AbortError")|]; auto.
  - run_try.
    destruct (negb ok || negb (truthy (payload body)) || negb (typeofObject (payload body)));
      [auto|].
    destruct (codeFlagged (payload body) (code p) false) as [[|]|e] eqn:Hna; cbn.
    + auto.
    + destruct (getOptional _ _) as [[| | | html | |]|]; auto 6.
      destruct (codeFlagged (payload body) (code p) true) as [a|e] eqn:Hap; cbn.
      * destruct (a && noNewPill _ _); [auto 6|].
        do 5 right. now exists (payload body), html.
      * rewrite (codeFlagged_throws _ _ _ Hap). auto.
    + rewrite (codeFlagged_throws _ _ _ Hna). auto.
Qed.

(** *** The request *)

Lemma includes_In xs x : includes xs x = true <-> In x xs.
Proof.
  unfold includes. rewrite existsb_exists. split.
  - intros (y & Hin & Heq). apply String.eqb_eq in Heq. now subst.
  - intros Hin. exists x. split; [assumption | apply String.eqb_refl].
Qed.







(** The heuristic also holds of two lists that differ by their order
    only, duplicates included. *)
Lemma noNewPill_Permutation next prev :
  Permutation next prev -> noNewPill next prev = true.
Proof.
  intros Hperm. unfold noNewPill. apply andb_true_iff. split.
  - apply Nat.eqb_eq. now apply Permutation_length.
  - apply forallb_forall. intros c Hc. apply includes_In.
    now apply (Permutation_in c Hperm).
Qed.


Lemma noNewPill_true_sameCodes next prev :
  NoDup next -> noNewPill next prev = true -> sameCodes next prev.
Proof.
  intros Hn H. unfold noNewPill in H. apply andb_true_iff in H as [Hlen Hall].
  apply Nat.eqb_eq in Hlen. rewrite forallb_forall in Hall.
  assert (Hincl : incl next prev).
  { intros c Hc. apply includes_In. now apply Hall. }
  intros c. split; [apply Hincl|].
  apply (NoDup_length_incl Hn); [lia | assumption].
Qed.

(** *** Validation no-ops *)



(** C8.  When the pill that was activated carries no code of
    [#existingDiscounts], [removeDiscount] returns at once: no request is
    issued and the state is the one it was called in. *)
Theorem remove_absent_code ev s :
  (forall pl, closestPill ev = Some pl ->
              ~ In (normalizeCode (match discountCode pl with
                                   | Some c => c
                                   | None => EmptyString
                                   end)) (existingDiscounts s)) ->
  removeDiscount_request ev s = (s, None) /\
  forall out, removeDiscount ev out s = s.
Proof.
  intros Habsent.
  assert (H : removeDiscount_request ev s = (s, None)).
  { unfold removeDiscount_request.
    destruct (match key ev with Some k => _ | None => _ end); [reflexivity|].
    destruct (negb (targetIsElement ev)); [reflexivity|].
    destruct (sectionId s); [|reflexivity].
    destruct (closestPill ev) as [pl|]; [|reflexivity].
    destruct (negb (isListItem pl)); [reflexivity|].
    destruct (isEmpty _); [reflexivity|].
    destruct (includes _ _) eqn:Hinc; [|reflexivity].
    apply includes_In in Hinc. now contradiction (Habsent pl eq_refl). }
  split; [assumption|].
  intros out. unfold removeDiscount. now rewrite H.
Qed.

Lemma remove_absent_code_witness :
  removeDiscount_request (clickPill "SAVE99") drawer = (drawer, None).
Proof.
  apply (@remove_absent_code (clickPill "SAVE99") drawer).
  intros pl Hpl. inversion Hpl; subst; clear Hpl.
  vm_compute. intros [H|[]]. discriminate.
Defined.

(** *** Classification of a settled response *)










(** *** Failures *)




(** *** Superseded requests *)

(** An aborted fetch shows no error, yet it still runs the whole
    [finally] block. *)
Lemma settle_aborted E p s :
  applyDiscount_settle E p (Rejected (Some "AbortError")) s = applyDiscount_finally s.
Proof. reflexivity. Qed.

Lemma settle_aborted_releases_handle E p s :
  activeFetch (applyDiscount_settle E p (Rejected (Some "AbortError")) s) = None.
Proof. rewrite settle_aborted. apply activeFetch_finally. Qed.

Lemma remove_settle_rejected e s :
  removeDiscount_settle (Rejected e) s = setActiveFetch None s.
Proof. reflexivity. Qed.

(** C1, on the code.  A code is being applied when the form is submitted
    a second time: the second call aborts the controller of the first,
    stores its own, and locks the interface again.  When the aborted fetch
    then rejects with an AbortError, the settlement of the first call shows
    no error, but its [finally] block clears the handle that now belongs to
    the second call, enables the submit control again and empties the
    status text, while the second request is still pending. *)
Theorem superseded_apply_settlement :
  exists s2 q,
    applyDiscount_request submitForm drawer = (suspended, Some closure) /\
    applyDiscount_request submitForm suspended = (s2, Some q) /\
    In (controller closure) (aborted s2) /\
    interface s2
    = (Some (Button true true), Some "Applying…", ErrorPanel true true true,
       Some " #save20 ", Some (controller q)) /\
    interface (applyDiscount_settle parser closure (Rejected (Some "AbortError")) s2)
    = (Some (Button false false), Some EmptyString, ErrorPanel true true true,
       Some " #save20 ", None).
Proof.
  exists (fst (applyDiscount_request submitForm suspended)),
    (Pending 1 "SAVE20" ["SAVE10"]).
  split; [vm_compute; reflexivity|]. split; [vm_compute; reflexivity|].
  split; [vm_compute; auto|]. split; vm_compute; reflexivity.
Qed.

(** The same happens when the pending call is superseded by the removal
    of a pill, which takes the handle without locking the interface, and
    the [finally] of [removeDiscount] clears the handle of a call that
    superseded it in the same way. *)
Lemma superseded_apply_by_remove :
  exists s2 c,
    removeDiscount_request (clickPill "SAVE10") suspended = (s2, Some c) /\
    In (controller closure) (aborted s2) /\
    activeFetch s2 = Some c /\
    activeFetch (applyDiscount_settle parser closure (Rejected (Some "AbortError")) s2)
    = None.
Proof.
  exists (fst (removeDiscount_request (clickPill "SAVE10") suspended)), 1.
  split; [vm_compute; reflexivity|]. split; [vm_compute; auto|].
  split; vm_compute; reflexivity.
Qed.

Lemma superseded_remove_by_apply :
  exists s1 c s2 q,
    removeDiscount_request (clickPill "SAVE10") drawer = (s1, Some c) /\
    applyDiscount_request submitForm s1 = (s2, Some q) /\
    In c (aborted s2) /\
    activeFetch s2 = Some (controller q) /\
    activeFetch (removeDiscount_settle (Rejected (Some "AbortError")) s2) = None.
Proof.
  exists (fst (removeDiscount_request (clickPill "SAVE10") drawer)), 0.
  exists (fst (applyDiscount_request submitForm
                 (fst (removeDiscount_request (clickPill "SAVE10") drawer)))),
    (Pending 1 "SAVE20" ["SAVE10"]).
  split; [vm_compute; reflexivity|]. split; [vm_compute; reflexivity|].
  split; [vm_compute; auto|]. split; vm_compute; reflexivity.
Qed.

(** With the handle cleared, a third call finds nothing to abort: the
    request of the second call stays in flight next to the third. *)
Lemma handle_lost_after_superseded_settlement :
  exists s2 q s4 r,
    applyDiscount_request submitForm suspended = (s2, Some q) /\
    applyDiscount_request submitForm
      (applyDiscount_settle parser closure (Rejected (Some "AbortError")) s2)
    = (s4, Some r) /\
    ~ In (controller q) (aborted s4) /\
    List.length (requests s4) = 3.
Proof.
  exists (fst (applyDiscount_request submitForm suspended)),
    (Pending 1 "SAVE20" ["SAVE10"]).
  exists (fst (applyDiscount_request submitForm
                 (applyDiscount_settle parser closure (Rejected (Some "AbortError"))
                    (fst (applyDiscount_request submitForm suspended))))),
    (Pending 2 "SAVE20" ["SAVE10"]).
  split; [vm_compute; reflexivity|]. split; [vm_compute; reflexivity|].
  split; [|vm_compute; reflexivity].
  vm_compute. intros [H|[]]. discriminate.
Qed.

End CartDiscountFacts.

(** ** The pager of the blog list *)
Module BlogPostsListFacts.
Import BlogPostsList.

Example parseInt10_examples :
  parseInt10 " 12px" = Some 12%Z /\ parseInt10 "-3" = Some (-3)%Z /\
  parseInt10 "px" = None /\ parseInt10 "" = None.
Proof. repeat split. Qed.

Example pageSize_of_busy : pageSize busy = Some 12%Z.
Proof. reflexivity. Qed.

(** An empty first page ends the list; the request is no longer in
    flight once its settlement has run. *)
Example empty_first_page :
  let s := loadNext_settle plain (Responded true (Some (JObj [("items", JArr [])]))) busy in
  done s = true /\ loading s = false /\ page s = 1 /\
  children (ui s) = [EmptyNote "No posts yet."].
Proof. repeat split. Qed.

(** A failed request leaves the page number alone and shows the error. *)
Example failed_first_page :
  let s := loadNext_settle plain (Responded false None) busy in
  done s = false /\ loading s = false /\ page s = 1 /\
  children (ui s) = [ErrorNote "Something went wrong. Please try again."].
Proof. repeat split. Qed.

Example short_page_ends_the_list :
  let s := loadNext_settle plain
             (Responded true (Some (JObj [("items", JArr [JObj []; JObj []])]))) busy in
  done s = true /\ loading s = false /\ page s = 2 /\
  List.length (children (ui s)) = 2.
Proof. repeat split. Qed.

Lemma loading_onUi f s : loading (onUi f s) = loading s.
Proof. reflexivity. Qed.

Lemma loading_reset s : loading (reset s) = loading s.
Proof. reflexivity. Qed.

(** A call that meets the guard returns the state it was given. *)
Lemma loadNext_request_guard E s :
  loading s = true \/ done s = true -> loadNext_request E s = (s, None).
Proof.
  intros H. unfold loadNext_request.
  destruct H as [-> | ->]; [reflexivity | now rewrite orb_true_r].
Qed.

(** A call that goes past the guard and reaches [fetch] sets [#loading]. *)
Lemma loadNext_request_sets_loading E s s' r :
  loadNext_request E s = (s', Some r) ->
  loading s = false /\ loading s' = true.
Proof.
  unfold loadNext_request.
  destruct (loading s) eqn:Hl; [discriminate|].
  destruct (done s); simpl; [discriminate|].
  destruct (isEmpty (endpoint s)); [discriminate|].
  destruct (urlParses E _); [|discriminate].
  intros H. inversion H; subst. split; reflexivity.
Qed.

Lemma loadNext_request_keeps_loading E s s' :
  loadNext_request E s = (s', None) -> loading s = false -> loading s' = false.
Proof.
  unfold loadNext_request. intros H Hl. rewrite Hl in H.
  destruct (done s); simpl in H; [now inversion H; subst|].
  destruct (isEmpty (endpoint s)); [now inversion H; subst|].
  destruct (urlParses E _); [discriminate|].
  inversion H; subst. reflexivity.
Qed.

Lemma oneAtATime_step E c c' : oneAtATime c -> step E c c' -> oneAtATime c'.
Proof.
  unfold oneAtATime.
  intros [Hidle Hone] Hstep. destruct Hstep as [s fl | s before r after out | s fl];
    simpl in *.
  - destruct (loadNext_request E s) as [s' [r|]] eqn:Hreq; simpl.
    + destruct (loadNext_request_sets_loading _ _ Hreq) as [Hl Hl'].
      rewrite (Hidle Hl). simpl.
      split; [intros Hx; rewrite Hl' in Hx; discriminate | lia].
    + rewrite app_nil_r. split; [|assumption].
      intros Hl'. destruct (loading s) eqn:Hl; [|now apply Hidle].
      rewrite (loadNext_request_guard E s (or_introl Hl)) in Hreq.
      inversion Hreq; subst. congruence.
  - rewrite length_app in Hone. simpl in Hone.
    assert (before = [] /\ after = []) as [-> ->].
    { destruct before, after; simpl in Hone; try lia. auto. }
    split; [reflexivity | simpl; lia].
  - split; assumption.
Qed.

Lemma oneAtATime_reachable E c : reachable E c -> oneAtATime c.
Proof.
  induction 1 as [c (_ & _ & _ & _ & Hfl) | c c' _ IH Hstep].
  - unfold oneAtATime. rewrite Hfl. split; [reflexivity | simpl; lia].
  - eapply oneAtATime_step; eassumption.
Qed.

(** C10.  [loadNext] is guarded against re-entry: a call made while
    [#loading] is set, or once [#done] is set, returns at once, issuing
    no fetch and leaving the state as it was; hence, however calls,
    settlements and resets interleave, a component never has more than
    one load request in flight. *)
Theorem loadNext_reentrancy_guard E :
  (forall s, loading s = true \/ done s = true ->
             loadNext_request E s = (s, None)) /\
  (forall c, reachable E c -> List.length (inFlight c) <= 1).
Proof.
  split.
  - apply loadNext_request_guard.
  - intros c Hc. apply (oneAtATime_reachable Hc).
Qed.

(** The first call on an idle list puts one request in flight. *)
Lemma busy_reachable : reachable plain (Config busy [firstPage]).
Proof.
  apply reachable_step with (c := Config idle []).
  - apply reachable_fresh. repeat split; reflexivity.
  - exact (step_loadNext plain idle []).
Qed.

Lemma loadNext_reentrancy_guard_witness :
  loading busy = true /\ loadNext_request plain busy = (busy, None) /\
  List.length (inFlight (Config busy [firstPage])) <= 1.
Proof.
  split; [reflexivity|]. split.
  - apply (proj1 (loadNext_reentrancy_guard plain) busy). now left.
  - apply (proj2 (loadNext_reentrancy_guard plain)), busy_reachable.
Defined.

End BlogPostsListFacts.

(** ** The auto-closing details script *)
Module AutoCloseDetailsFacts.
Import AutoCloseDetails.

Lemma updateMode_follows w s :
  closingOn s = modeOf (lastWidth s) -> closingOn (updateMode w s) = modeOf w.
Proof.
  unfold updateMode, modeOf, BREAKPOINT. cbn. intros Hs. rewrite Hs.
  destruct (Z.ltb_spec w 750), (Z.ltb_spec (lastWidth s) 750),
    (Z.leb_spec 750 w), (Z.leb_spec 750 (lastWidth s)); cbn; try reflexivity; lia.
Qed.

Lemma resizeBound_react s e : resizeBound s = false -> resizeBound (react s e) = false.
Proof.
  destruct e as [w | ev |]; cbn; intros H; try reflexivity.
  - unfold resize. now rewrite H.
  - unfold onClick. destruct (clickBound s); cbn; assumption.
Qed.

Lemma resizeBound_run es s :
  resizeBound s = false -> resizeBound (fold_left react es s) = false.
Proof.
  revert s. induction es as [|e es IH]; intros s H; [assumption|].
  cbn. apply IH, resizeBound_react, H.
Qed.

Lemma mode_react s e :
  closingOn s = modeOf (lastWidth s) ->
  closingOn (react s e) = modeOf (lastWidth (react s e)).
Proof.
  intros H. destruct e as [w | ev |]; cbn.
  - unfold resize. destruct (resizeBound s); [|assumption].
    now rewrite (updateMode_follows w s H).
  - unfold onClick. destruct (clickBound s); assumption.
  - assumption.
Qed.

Lemma mode_run es s :
  closingOn s = modeOf (lastWidth s) ->
  closingOn (fold_left react es s) = modeOf (lastWidth (fold_left react es s)).
Proof.
  revert s. induction es as [|e es IH]; intros s H; [assumption|].
  cbn. apply IH, mode_react, H.
Qed.

Lemma width_run es s :
  resizeBound (fold_left react es s) = true ->
  lastWidth (fold_left react es s) = widthAfter (lastWidth s) es.
Proof.
  revert s. induction es as [|e es IH]; intros s H; [reflexivity|].
  cbn in *. destruct (resizeBound s) eqn:Hb.
  - rewrite (IH _ H). destruct e as [w | ev |]; cbn; try reflexivity.
    + unfold resize. now rewrite Hb.
    + unfold onClick. now destruct (clickBound s).
  - rewrite (resizeBound_run es _ (resizeBound_react s e Hb)) in H. discriminate.
Qed.

(** X1.  However resizes, clicks and [stop] follow one another, the mode
    the script closes on is the mode of the width it last recorded:
    updating it only when the width crosses the breakpoint loses nothing.
    While the resize listener is attached, that width is the width of the
    window. *)
Theorem closing_mode_follows_width w doc es :
  let s := fold_left react es (start w doc) in
  closingOn s = modeOf (lastWidth s) /\
  (resizeBound s = true -> lastWidth s = widthAfter w es).
Proof.
  cbv zeta. split.
  - apply mode_run. reflexivity.
  - intros H. apply (width_run es (start w doc) H).
Qed.

Lemma visit_fields m ev el :
  node (visit m ev el) = node el /\
  autoClose (visit m ev el) = autoClose el /\
  (isOpen (visit m ev el) = true -> isOpen el = true).
Proof.
  unfold visit. destruct el as [n [v|] o]; cbn; [|auto].
  destruct o; cbn; [|auto].
  destruct (negb _ && negb _); cbn; [auto|].
  destruct (clickedInside ev _); cbn; auto.
Qed.

(** X2.  A click never opens a [<details>], never changes a node or its
    attribute, and keeps the elements in their order; the variables of the
    script are left alone. *)
Theorem click_only_closes ev s :
  Forall2 (fun before after =>
             node after = node before /\
             autoClose after = autoClose before /\
             (isOpen after = true -> isOpen before = true))
          (document s) (document (onClick ev s)) /\
  closingOn (onClick ev s) = closingOn s /\
  lastWidth (onClick ev s) = lastWidth s.
Proof.
  unfold onClick. destruct (clickBound s); cbn.
  - split; [|auto]. induction (document s) as [|el doc IH]; cbn; constructor.
    + apply visit_fields.
    + assumption.
  - split; [|auto]. induction (document s) as [|el doc IH]; constructor; auto.
Qed.

Lemma clickedInside_In ev el : clickedInside ev el = true <-> In (node el) (around ev).
Proof.
  unfold clickedInside. rewrite existsb_exists. split.
  - intros (n & Hin & Heq). apply Nat.eqb_eq in Heq. now subst.
  - intros Hin. exists (node el). split; [assumption | apply Nat.eqb_refl].
Qed.

(** X3.  A [<details>] that the click is inside of is left exactly as it
    was, and so is one without the attribute. *)
Theorem click_inside_keeps ev s el :
  In el (document s) ->
  In (node el) (around ev) \/ autoClose el = None ->
  In el (document (onClick ev s)).
Proof.
  intros Hin Hcase. unfold onClick. destruct (clickBound s); [|assumption].
  cbn. apply in_map_iff. exists el. split; [|assumption].
  unfold visit. destruct Hcase as [Hpath | Hattr].
  - apply clickedInside_In in Hpath. rewrite Hpath.
    destruct (autoClose el); [|reflexivity].
    destruct (negb (isOpen el)); [reflexivity|].
    now destruct (negb _ && negb _).
  - now rewrite Hattr.
Qed.

Lemma click_inside_keeps_witness :
  In (Details 1 (Some "Mobile, always") true)
     (document (onClick (Click [1]) (start 1280 menus))).
Proof.
  apply (@click_inside_keeps (Click [1]) (start 1280 menus)
           (Details 1 (Some "Mobile, always") true)).
  - simpl. now left.
  - left. simpl. now left.
Defined.

Lemma includes_In_text xs x : includes xs x = true <-> In x xs.
Proof.
  unfold includes. rewrite existsb_exists. split.
  - intros (y & Hin & Heq). apply String.eqb_eq in Heq. now subst.
  - intros Hin. exists x. split; [assumption | apply String.eqb_refl].
Qed.

(** X4.  While the click listener is attached, an open [<details>] whose
    attribute lists [always], in any letter case and with white space
    around it, is closed by every click outside it, whatever the width of
    the window. *)
Theorem always_closes_outside ev s el v piece :
  clickBound s = true ->
  In el (document s) ->
  isOpen el = true ->
  autoClose el = Some v ->
  In piece (splitOn ","%char v) ->
  toLowerCase (trim piece) = "always" ->
  ~ In (node el) (around ev) ->
  In (Details (node el) (Some v) false) (document (onClick ev s)).
Proof.
  intros Hbound Hin Hopen Hattr Hpiece Hname Hout.
  unfold onClick. rewrite Hbound. cbn.
  apply in_map_iff. exists el. split; [|assumption].
  unfold visit. rewrite Hattr, Hopen. cbv zeta. cbn [negb].
  assert (Hal : includes (modes (Some v)) "always" = true).
  { apply includes_In_text. unfold modes. apply in_map_iff.
    exists piece. now split. }
  rewrite Hal, andb_false_r.
  destruct (clickedInside ev el) eqn:Hc; [|reflexivity].
  apply clickedInside_In in Hc. contradiction.
Qed.

Lemma always_closes_outside_witness :
  In (Details 1 (Some "Mobile, always") false)
     (document (onClick (Click [2]) (start 1280 menus))).
Proof.
  apply (@always_closes_outside (Click [2]) (start 1280 menus)
           (Details 1 (Some "Mobile, always") true) "Mobile, always" " always").
  - reflexivity.
  - simpl. now left.
  - reflexivity.
  - reflexivity.
  - simpl. auto.
  - reflexivity.
  - simpl. intros [H|[]]. discriminate.
Defined.

(** X5.  A [<details>] whose attribute lists neither the current mode nor
    [always] is left as it was by every click: a menu set up for the
    other breakpoint stays open. *)
Theorem other_mode_stays ev s el :
  In el (document s) ->
  ~ In (modeName (closingOn s)) (modes (autoClose el)) ->
  ~ In "always" (modes (autoClose el)) ->
  In el (document (onClick ev s)).
Proof.
  intros Hin Hmode Halways. unfold onClick. destruct (clickBound s); [|assumption].
  cbn. apply in_map_iff. exists el. split; [|assumption].
  unfold visit. destruct (autoClose el) as [v|] eqn:Hattr; [|reflexivity].
  destruct (negb (isOpen el)); [reflexivity|].
  destruct (includes (modes (Some v)) (modeName (closingOn s))) eqn:H1.
  { apply includes_In_text in H1. contradiction. }
  destruct (includes (modes (Some v)) "always") eqn:H2.
  { apply includes_In_text in H2. contradiction. }
  reflexivity.
Qed.

Lemma other_mode_stays_witness :
  In (Details 2 (Some "desktop") true)
     (document (onClick (Click []) (start 390 menus))).
Proof.
  apply (@other_mode_stays (Click []) (start 390 menus) (Details 2 (Some "desktop") true)).
  - simpl. auto.
  - vm_compute. intros [H|[]]. discriminate.
  - vm_compute. intros [H|[]]. discriminate.
Defined.

Lemma visit_again m ev el : visit m ev (visit m ev el) = visit m ev el.
Proof.
  unfold visit at 2. destruct (autoClose el) as [v|] eqn:Hattr.
  - destruct (negb (isOpen el)) eqn:Hopen.
    + unfold visit. now rewrite Hattr, Hopen.
    + destruct (negb _ && negb _) eqn:Hm.
      * unfold visit. now rewrite Hattr, Hopen, Hm.
      * destruct (clickedInside ev el) eqn:Hc.
        -- unfold visit. now rewrite Hattr, Hopen, Hm, Hc.
        -- unfold visit. cbn. now rewrite Hattr, Hopen, Hm, Hc.
  - unfold visit. now rewrite Hattr.
Qed.

(** X6.  Handling the same click twice is handling it once. *)
Theorem click_idempotent ev s : onClick ev (onClick ev s) = onClick ev s.
Proof.
  unfold onClick. destruct (clickBound s) eqn:Hb; cbn; [|now rewrite Hb].
  f_equal. rewrite map_map. apply map_ext. intros el. apply visit_again.
Qed.

Lemma stopped_react s e :
  resizeBound s = false -> clickBound s = false -> react s e = s.
Proof.
  intros Hr Hc. destruct e as [w | ev |]; cbn.
  - unfold resize. now rewrite Hr.
  - unfold onClick. now rewrite Hc.
  - destruct s; cbn in *. now subst.
Qed.

(** X7.  After [AutoCloseDetails.stop()] nothing reaches the script any
    more: no resize changes its mode and no click closes a [<details>]. *)
Theorem stop_is_final es s : fold_left react es (stop s) = stop s.
Proof.
  induction es as [|e es IH]; [reflexivity|].
  cbn. now rewrite (stopped_react (stop s) e eq_refl eq_refl).
Qed.

End AutoCloseDetailsFacts.

(** ** More on the normalisation of codes *)
Module NormalizeMoreFacts.
Import NormalizeFacts.




Lemma toUpperChar_hash c : toUpperChar c = "#"%char <-> c = "#"%char.
Proof.
  destruct c as [[] [] [] [] [] [] [] []]; split; intros H;
    try reflexivity; try discriminate; vm_compute in H; discriminate.
Qed.









End NormalizeMoreFacts.

(** ** More on the cart-discount handlers *)
Module CartDiscountMoreFacts.
Import CartDiscount CartDiscountTrace CartDiscountFacts NormalizeMoreFacts.



(** X11.  While a call of [applyDiscount] waits for the network the form
    is locked: the submit control is disabled and busy, the status region
    says "Applying…", the three errors are hidden, the controller that was
    stored before is aborted and the new one is stored; the request lists
    the codes of the pills in their order, then the new code, and names
    the component's section alone.  The input field and the pills are not
    touched. *)
Theorem apply_locks_while_pending ev s s1 p :
  applyDiscount_request ev s = (s1, Some p) ->
  submit s1 = option_map (fun _ => Button true true) (submit s) /\
  statusLive s1 = Some "Applying…" /\
  noErrorShown s1 /\
  (forall c, activeFetch s = Some c -> In c (aborted s1)) /\
  activeFetch s1 = Some (controller p) /\
  controller p = controllers s /\
  controllers s1 = S (controllers s) /\
  requests s1 = requests s
                ++ [Request (join "," (existingDiscounts s ++ [code p]))
                            [sectionKey s] (controller p)] /\
  input s1 = input s /\ pills s1 = pills s.
Proof.
  unfold applyDiscount_request, sectionKey.
  destruct (negb (targetIsForm ev)); [discriminate|].
  destruct (sectionId s) as [sid|] eqn:Hsid; [|discriminate].
  destruct (input s) as [value|] eqn:Hin; [|discriminate].
  destruct (isEmpty (normalizeCode value)); [discriminate|].
  destruct (includes (existingDiscounts s) (normalizeCode value)); [discriminate|].
  generalize (existingDiscounts s) as codes. intros codes.
  destruct s as [? ? ? sub ? ? act ? ? ? ? ? ? ? ?]; simpl in Hsid, Hin.
  unfold newAbort, lockUI, hideAllErrors, noErrorShown.
  destruct sub, act; cbn; intros H; inversion H; subst; clear H; cbn;
    repeat split; auto; intros c Hc; inversion Hc; subst; now left.
Qed.

Lemma apply_locks_while_pending_witness :
  submit suspended = Some (Button true true) /\
  statusLive suspended = Some "Applying…" /\
  requests suspended = [Request "SAVE10,SAVE20" ["cart-drawer"] 0].
Proof.
  assert (Hreq : applyDiscount_request submitForm drawer = (suspended, Some closure))
    by (vm_compute; reflexivity).
  destruct (apply_locks_while_pending _ _ Hreq)
    as (H1 & H2 & _ & _ & _ & _ & _ & H8 & _).
  repeat split; assumption.
Defined.

(** *** What every settlement does *)

Lemma sameSurroundings_refl s : sameSurroundings s s.
Proof. unfold sameSurroundings. repeat split; auto. Qed.

Ltac surroundings s :=
  destruct s as [? ? ? ? ? ? ? ? live ? ? ? ? ? ?];
  unfold sameSurroundings, showError, clearInput, morphSection,
    dispatchDiscountUpdate;
  destruct live; cbn; repeat split; auto; try discriminate.

Lemma settle_shape E p out s :
  exists s', applyDiscount_settle E p out s = applyDiscount_finally s' /\
             sameSurroundings s s' /\
             (errors s' = errors s \/
              errors s' = ErrorPanel false false
                                     (cartDiscountErrorShippingHidden (errors s)) \/
              errors s' = ErrorPanel false
                                     (cartDiscountErrorDiscountCodeHidden (errors s))
                                     false).
Proof.
  destruct (settle_taxonomy E p out s) as [H|[H|[H|[H|[H|(data & html & H)]]]]];
    cbv zeta in H; rewrite H; eexists; (split; [reflexivity|]).
  - split; [apply sameSurroundings_refl | now left].
  - split; [surroundings s|]. right. left.
    destruct s as [? ? ? ? ? ? ? ? live ? ? ? ? ? ?]. unfold showError.
    destruct live; reflexivity.
  - split; [surroundings s|]. right. left.
    destruct s as [? ? ? ? ? ? ? ? live ? ? ? ? ? ?]. unfold showError, clearInput.
    destruct live; reflexivity.
  - split; [surroundings s | now left].
  - split; [surroundings s|]. right. right.
    destruct s as [? ? ? ? ? ? ? ? live ? ? ? ? ? ?]. unfold showError, clearInput.
    destruct live; reflexivity.
  - split; [surroundings s | now left].
Qed.

Lemma finally_unlocks s :
  activeFetch (applyDiscount_finally s) = None /\
  submit (applyDiscount_finally s)
  = (if submitBtn s then option_map (fun _ => Button false false) (submit s)
     else submit s) /\
  statusLive (applyDiscount_finally s)
  = option_map (fun _ => EmptyString) (statusLive s) /\
  measured (applyDiscount_finally s) = S (measured s) /\
  pills (applyDiscount_finally s) = pills s /\
  aborted (applyDiscount_finally s) = aborted s /\
  controllers (applyDiscount_finally s) = controllers s /\
  requests (applyDiscount_finally s) = requests s.
Proof.
  destruct s as [? ? ? ? ? ? ? btn live ? ? ? ? ? ?].
  unfold applyDiscount_finally, unlockUI. destruct btn, live; cbn; repeat split.
Qed.



(** X13.  After a call that reached the network at most one kind of error
    is on display: either the three error nodes are hidden, or the panel
    shows the discount-code error alone, or the shipping error alone. *)
Theorem apply_shows_one_error_at_most E ev out s s1 p :
  applyDiscount_request ev s = (s1, Some p) ->
  let s2 := applyDiscount_settle E p out s1 in
  errors s2 = ErrorPanel true true true \/
  errors s2 = ErrorPanel false false true \/
  errors s2 = ErrorPanel false true false.
Proof.
  intros Hreq. cbv zeta.
  destruct (apply_locks_while_pending _ _ Hreq) as (_ & _ & Herr & _).
  unfold noErrorShown in Herr.
  destruct (settle_shape E p out s1) as (s' & -> & _ & He).
  rewrite errors_finally, Herr in *. cbn in He. exact He.
Qed.

Lemma apply_shows_one_error_at_most_witness :
  errors (applyDiscount_settle parser closure
            (Responded true (Some (response true markupOld))) suspended)
  = ErrorPanel false true false.
Proof.
  assert (Hreq : applyDiscount_request submitForm drawer = (suspended, Some closure))
    by (vm_compute; reflexivity).
  destruct (@apply_shows_one_error_at_most parser submitForm
              (Responded true (Some (response true markupOld)))
              drawer suspended closure Hreq) as [H|[H|H]].
  - vm_compute in H. discriminate.
  - vm_compute in H. discriminate.
  - exact H.
Defined.

(** *** Removing a code *)

Lemma removeFirst_length x xs :
  In x xs -> List.length (removeFirst x xs) + 1 = List.length xs.
Proof.
  induction xs as [|y r IH]; [contradiction|].
  simpl. destruct (String.eqb x y) eqn:Hxy; [lia|].
  intros [H | H].
  - subst. rewrite String.eqb_refl in Hxy. discriminate.
  - simpl. rewrite <- (IH H). lia.
Qed.

Lemma removeFirst_other x y xs :
  y <> x -> (In y (removeFirst x xs) <-> In y xs).
Proof.
  intros Hne. induction xs as [|z r IH]; [reflexivity|].
  simpl. destruct (String.eqb x z) eqn:Hxz.
  - apply String.eqb_eq in Hxz. subst z. split; [now right|].
    intros [H | H]; [congruence | assumption].
  - simpl. now rewrite IH.
Qed.

Lemma removeFirst_NoDup x xs : NoDup xs -> ~ In x (removeFirst x xs).
Proof.
  induction 1 as [|y r Hy Hr IH]; [auto|].
  simpl. destruct (String.eqb x y) eqn:Hxy.
  - apply String.eqb_eq in Hxy. now subst.
  - intros [H | H]; [|now apply IH].
    subst. rewrite String.eqb_refl in Hxy. discriminate.
Qed.

(** X14.  A removal that reaches the network sends the codes of the pills
    with the first occurrence of the activated code taken out: every
    other code stays, one entry fewer is sent, and with duplicate-free
    pills the code itself is gone.  It aborts the controller stored before
    and stores its own, and, unlike [applyDiscount], it leaves the submit
    control, the status text, the errors and the input field alone. *)
Theorem remove_request_payload ev s s1 c :
  removeDiscount_request ev s = (s1, Some c) ->
  exists pl,
    closestPill ev = Some pl /\
    let removed := normalizeCode (match discountCode pl with
                                  | Some raw => raw
                                  | None => EmptyString
                                  end) in
    let sent := removeFirst removed (existingDiscounts s) in
    requests s1 = requests s ++ [Request (join "," sent) [sectionKey s] c] /\
    List.length sent + 1 = List.length (existingDiscounts s) /\
    (forall x, x <> removed -> (In x sent <-> In x (existingDiscounts s))) /\
    (NoDup (existingDiscounts s) -> ~ In removed sent) /\
    (forall c0, activeFetch s = Some c0 -> In c0 (aborted s1)) /\
    activeFetch s1 = Some c /\
    submit s1 = submit s /\ statusLive s1 = statusLive s /\
    errors s1 = errors s /\ input s1 = input s.
Proof.
  unfold removeDiscount_request, sectionKey.
  destruct (match key ev with Some k => _ | None => _ end); [discriminate|].
  destruct (negb (targetIsElement ev)); [discriminate|].
  destruct (sectionId s) as [sid|] eqn:Hsid; [|discriminate].
  destruct (closestPill ev) as [pl|]; [|discriminate].
  destruct (negb (isListItem pl)); [discriminate|].
  destruct (isEmpty _); [discriminate|].
  destruct (includes _ _) eqn:Hinc; [|discriminate]. cbn [negb].
  apply includes_In in Hinc.
  intros H. exists pl. split; [reflexivity|]. cbv zeta.
  split; [|split; [now apply removeFirst_length|
           split; [intros x Hx; now apply removeFirst_other|
           split; [apply removeFirst_NoDup|]]]].
  - revert H. generalize (removeFirst
      (normalizeCode match discountCode pl with Some raw => raw | None => "" end)
      (existingDiscounts s)) as sent. intros sent.
    destruct s as [? ? ? ? ? ? act ? ? ? ? ? ? ? ?]; simpl in Hsid. subst.
    unfold newAbort. destruct act; cbn; intros H; inversion H; reflexivity.
  - revert H. generalize (removeFirst
      (normalizeCode match discountCode pl with Some raw => raw | None => "" end)
      (existingDiscounts s)) as sent. intros sent.
    destruct s as [? ? ? ? ? ? act ? ? ? ? ? ? ? ?].
    unfold newAbort. destruct act; cbn; intros H; inversion H; subst;
      repeat split; auto; intros c0 Hc; inversion Hc; subst; now left.
Qed.

Lemma remove_request_payload_witness :
  requests (fst (removeDiscount_request (clickPill "save10") drawer))
  = [Request EmptyString ["cart-drawer"] 0].
Proof.
  destruct (@remove_request_payload (clickPill "save10") drawer
              (fst (removeDiscount_request (clickPill "save10") drawer)) 0)
    as (pl & Hpl & H & _).
  - vm_compute. reflexivity.
  - inversion Hpl; subst. exact H.
Defined.

Lemma remove_settle_fields out s :
  let s' := removeDiscount_settle out s in
  activeFetch s' = None /\
  submit s' = submit s /\ statusLive s' = statusLive s /\ errors s' = errors s /\
  input s' = input s /\ pills s' = pills s /\ aborted s' = aborted s /\
  controllers s' = controllers s /\ requests s' = requests s.
Proof.
  cbv zeta. unfold removeDiscount_settle, tryCatchFinally, removeDiscount_try,
    bind, modify, gets, ret, throw.
  destruct out as [e | ok body]; [cbn; repeat split|].
  destruct (negb ok || _ || _); [cbn; repeat split|].
  cbn. destruct (getOptional _ _) as [[| | | h | |]|]; cbn; repeat split.
Qed.

(** X15.  When the request of a removal settles with an OK response that
    is read as an object, exactly one discount-update event is dispatched
    with that payload, before the section is replaced, and the section is
    replaced exactly when the response holds a string for the component's
    section; the handle is released and the form is left alone. *)
Theorem remove_success out data s :
  accepted out data ->
  let s' := removeDiscount_settle out s in
  dispatched s' = dispatched s ++ [(data, elementId s)] /\
  morphed s' = match sectionMarkup data s with
               | Some (JStr html) => morphed s ++ [(sectionKey s, html)]
               | _ => morphed s
               end /\
  activeFetch s' = None /\
  submit s' = submit s /\ statusLive s' = statusLive s /\
  errors s' = errors s /\ input s' = input s.
Proof.
  intros (body & -> & -> & Ht & Ho).
  destruct (remove_settle_fields (Responded true body) s)
    as (F1 & F2 & F3 & F4 & F5 & _).
  cbv zeta in *. rewrite F1, F2, F3, F4, F5. repeat split.
  - unfold removeDiscount_settle, tryCatchFinally, removeDiscount_try,
      bind, modify, gets, ret. rewrite Ht, Ho. cbn.
    destruct (getOptional _ _) as [[| | | h | |]|]; reflexivity.
  - unfold removeDiscount_settle, tryCatchFinally, removeDiscount_try,
      bind, modify, gets, ret, sectionMarkup. rewrite Ht, Ho. cbn.
    destruct (getOptional _ _) as [[| | | h | |]|]; reflexivity.
Qed.

Lemma remove_success_witness :
  dispatched (removeDiscount_settle (Responded true None) drawer)
  = [(JObj [], "cart-discount")] /\
  morphed (removeDiscount_settle (Responded true None) drawer) = [].
Proof.
  destruct (@remove_success (Responded true None) (JObj []) drawer) as (H1 & H2 & _).
  - exists None. repeat split; reflexivity.
  - split; assumption.
Defined.

(** X16.  A removal whose request fails in any way (the fetch rejects,
    it is aborted, the status is not OK, the body parses to null or to a
    value that is not an object) is swallowed: the handle is released and
    nothing else changes, no error being shown and no event dispatched. *)
Theorem remove_failure_is_silent out s :
  (forall data, ~ accepted out data) ->
  removeDiscount_settle out s = setActiveFetch None s.
Proof.
  intros Hno. destruct out as [e | ok body]; [reflexivity|].
  unfold removeDiscount_settle, tryCatchFinally, removeDiscount_try,
    bind, modify, gets, ret.
  destruct ok; [|reflexivity]. cbn [negb orb].
  destruct (truthy (payload body)) eqn:Ht; [|reflexivity].
  destruct (typeofObject (payload body)) eqn:Ho; [|reflexivity].
  exfalso. apply (Hno (payload body)). exists body. auto.
Qed.

Lemma remove_failure_is_silent_witness :
  removeDiscount_settle (Responded false (Some (JObj []))) drawer
  = setActiveFetch None drawer.
Proof.
  apply (@remove_failure_is_silent (Responded false (Some (JObj []))) drawer).
  intros data (body & Hout & _). discriminate.
Defined.

(** *** Controllers over time *)

Lemma handlesSound_same s s' :
  aborted s' = aborted s -> controllers s' = controllers s ->
  requests s' = requests s ->
  activeFetch s' = activeFetch s \/ activeFetch s' = None ->
  handlesSound s -> handlesSound s'.
Proof.
  unfold handlesSound. intros Ha Hc Hr Hact (H1 & H2 & H3 & H4).
  rewrite Ha, Hc, Hr. split; [assumption|]. split; [|split; assumption].
  intros c Hs'. destruct Hact as [Hact | Hact]; rewrite Hact in Hs';
    [now apply H2 | discriminate].
Qed.

Lemma handlesSound_newAbort s payload secs :
  handlesSound s ->
  handlesSound (setRequests (requests (snd (newAbort s))
                             ++ [Request payload secs (fst (newAbort s))])
                            (snd (newAbort s))).
Proof.
  unfold handlesSound, newAbort. intros (H1 & H2 & H3 & H4).
  assert (Hfresh : NoDup (map signal (requests s ++ [Request payload secs (controllers s)]))).
  { rewrite map_app. cbn.
    apply Permutation_NoDup with (l := controllers s :: map signal (requests s)).
    - apply Permutation_cons_append.
    - constructor; [|assumption].
      intros Hin. apply in_map_iff in Hin as (r & Hr & Hin).
      specialize (H3 r Hin). lia. }
  destruct s as [? ? ? ? ? ? act ? ? abt ctr reqs ? ? ?]; cbn in *.
  destruct act as [c|]; cbn.
  - destruct (H2 c eq_refl) as [Hc Hnot].
    split; [|split; [|split]].
    + intros x [<- | Hx]; [lia | specialize (H1 x Hx); lia].
    + intros x Hx. inversion Hx; subst. split; [lia|].
      intros [Hy | Hy]; [lia | specialize (H1 _ Hy); lia].
    + intros r Hr. apply in_app_or in Hr as [Hr | [<- | []]];
        [specialize (H3 r Hr); lia | cbn; lia].
    + exact Hfresh.
  - split; [|split; [|split]].
    + intros x Hx. specialize (H1 x Hx). lia.
    + intros x Hx. inversion Hx; subst. split; [lia|].
      intros Hy. specialize (H1 _ Hy). lia.
    + intros r Hr. apply in_app_or in Hr as [Hr | [<- | []]];
        [specialize (H3 r Hr); lia | cbn; lia].
    + exact Hfresh.
Qed.

Lemma locked_network s label :
  aborted (lockUI label (hideAllErrors s)) = aborted s /\
  controllers (lockUI label (hideAllErrors s)) = controllers s /\
  requests (lockUI label (hideAllErrors s)) = requests s /\
  activeFetch (lockUI label (hideAllErrors s)) = activeFetch s.
Proof.
  destruct s as [? ? ? sub ? ? ? ? ? ? ? ? ? ? ?].
  unfold lockUI, hideAllErrors. destruct sub; cbn; repeat split.
Qed.

Lemma apply_request_sound ev s :
  handlesSound s -> handlesSound (fst (applyDiscount_request ev s)).
Proof.
  intros Hs. unfold applyDiscount_request.
  destruct (negb (targetIsForm ev)); [assumption|].
  destruct (sectionId s); [|assumption].
  destruct (input s); [|assumption].
  destruct (isEmpty _); [assumption|].
  destruct (includes _ _).
  - cbn. apply handlesSound_same with (s := s); auto.
  - match goal with
    | |- context [newAbort ?x] =>
        rewrite (surjective_pairing (newAbort x)); cbn [fst];
        apply handlesSound_newAbort;
        destruct (locked_network s "Applying…") as (Ha & Hc & Hr & Hf);
        apply handlesSound_same with (s := s); auto
    end.
Qed.

Lemma remove_request_sound ev s :
  handlesSound s -> handlesSound (fst (removeDiscount_request ev s)).
Proof.
  intros Hs. unfold removeDiscount_request.
  destruct (match key ev with Some k => _ | None => _ end); [assumption|].
  destruct (negb (targetIsElement ev)); [assumption|].
  destruct (sectionId s); [|assumption].
  destruct (closestPill ev) as [pl|]; [|assumption].
  destruct (negb (isListItem pl)); [assumption|].
  destruct (isEmpty _); [assumption|].
  destruct (negb (includes _ _)); [assumption|].
  rewrite (surjective_pairing (newAbort s)). cbn [fst].
  now apply handlesSound_newAbort.
Qed.

Lemma apply_settle_sound E p out s :
  handlesSound s -> handlesSound (applyDiscount_settle E p out s).
Proof.
  intros Hs.
  destruct (settle_shape E p out s)
    as (s' & -> & (_ & _ & _ & _ & _ & _ & Ha & Hc & Hr & _) & _).
  destruct (finally_unlocks s') as (F1 & _ & _ & _ & _ & F6 & F7 & F8).
  apply handlesSound_same with (s := s); try congruence. now right.
Qed.

Lemma remove_settle_sound out s :
  handlesSound s -> handlesSound (removeDiscount_settle out s).
Proof.
  intros Hs.
  destruct (remove_settle_fields out s) as (F1 & _ & _ & _ & _ & _ & F7 & F8 & F9).
  cbv zeta in *. apply handlesSound_same with (s := s); auto.
Qed.

(** X17.  On a component that started with nothing sent, however submits,
    pill activations, settlements and typing follow one another: every
    request was given a controller of its own (no two requests share a
    signal), every aborted controller and every signal in use is older
    than the next controller, and the handle stored in [#activeFetch], if
    any, is a controller that has not been aborted. *)
Theorem controllers_stay_sound E s : cartReachable E s -> handlesSound s.
Proof.
  induction 1 as [s (Hact & Habt & Hctr & Hreq) | s s' _ IH Hstep].
  - unfold handlesSound. rewrite Hact, Habt, Hreq. cbn.
    repeat split; try contradiction; try discriminate. constructor.
  - destruct Hstep.
    + now apply apply_request_sound.
    + now apply apply_settle_sound.
    + now apply remove_request_sound.
    + now apply remove_settle_sound.
    + apply handlesSound_same with (s := s); auto.
Qed.

Lemma controllers_stay_sound_witness :
  NoDup (map signal (requests (fst (applyDiscount_request submitForm suspended)))) /\
  activeFetch (fst (applyDiscount_request submitForm suspended)) = Some 1.
Proof.
  assert (Hreach : cartReachable parser (fst (applyDiscount_request submitForm suspended))).
  { apply cart_later with (s := suspended); [|apply cart_apply].
    apply cart_later with (s := drawer); [|apply (cart_apply parser submitForm drawer)].
    apply cart_installed. repeat split. }
  destruct (controllers_stay_sound Hreach) as (_ & _ & _ & H).
  split; [exact H | vm_compute; reflexivity].
Defined.

End CartDiscountMoreFacts.

(** ** More on the blog list *)
Module BlogPostsListMoreFacts.
Import BlogPostsList BlogPostsListText.

(** *** #escape *)

Lemma markupFree_app a b :
  markupFree (a ++ b) = markupFree a && markupFree b.
Proof.
  induction a as [|c r IH]; [reflexivity|].
  simpl. now rewrite IH, andb_assoc.
Qed.

Lemma markupFree_escapeChar c : markupFree (escapeChar c) = true.
Proof. destruct c as [[] [] [] [] [] [] [] []]; reflexivity. Qed.

(** X18.  Escaped text holds no angle bracket, no double quote and no
    apostrophe: it cannot open or close a tag or an attribute value. *)
Theorem escape_markup_free s : markupFree (escape s) = true.
Proof.
  induction s as [|c r IH]; [reflexivity|].
  simpl. now rewrite markupFree_app, markupFree_escapeChar, IH.
Qed.

Lemma unescape_escapeChar c t :
  unescape (escapeChar c ++ escape t) = String c (unescape (escape t)).
Proof. destruct c as [[] [] [] [] [] [] [] []]; reflexivity. Qed.

Lemma unescape_escape s : unescape (escape s) = s.
Proof.
  induction s as [|c r IH]; [reflexivity|].
  simpl. now rewrite unescape_escapeChar, IH.
Qed.

(** X19.  [#escape] loses nothing: reading the five entities back gives
    the text that was escaped, so two different texts are never escaped
    to the same markup. *)
Theorem escape_round_trip s :
  unescape (escape s) = s /\ (forall t, escape t = escape s -> t = s).
Proof.
  split; [apply unescape_escape|].
  intros t H. rewrite <- (unescape_escape t), <- (unescape_escape s). now rewrite H.
Qed.

(** *** Settlements of [loadNext] *)


Ltac run_load :=
  unfold loadNext_settle, tryCatchFinally, loadNext_try, bind, modify, gets, throw, ret.

Lemma appendItems_nil s : appendItems [] s = s.
Proof.
  destruct s as [? ? ? ? [kids ? ? ? ?] ? ? ? ?]. unfold appendItems, onUi. cbn.
  now rewrite app_nil_r.
Qed.

Lemma appendItems_cons post posts s :
  appendItems posts (appendItems [post] s) = appendItems (post :: posts) s.
Proof.
  destruct s as [? ? ? ? [kids ? ? ? ?] ? ? ? ?]. unfold appendItems, onUi. cbn.
  now rewrite <- app_assoc.
Qed.

Lemma renderItems_ok E posts s :
  Forall (fun post => renderItemThrows E post = false) posts ->
  renderItems E posts s = (Normal tt, appendItems posts s).
Proof.
  revert s. induction posts as [|post posts IH]; intros s Hall.
  - cbn. now rewrite appendItems_nil.
  - inversion Hall as [|? ? Hpost Hrest]; subst. cbn. rewrite Hpost.
    unfold bind, modify.
    change (onUi (fun u => setChildren (children u ++ [Item post]) u) s)
      with (appendItems [post] s).
    now rewrite (IH _ Hrest), appendItems_cons.
Qed.

Lemma renderItems_throws E before bad after s :
  Forall (fun post => renderItemThrows E post = false) before ->
  renderItemThrows E bad = true ->
  renderItems E (before ++ bad :: after) s
  = (Throw (Some "TypeError"), appendItems before s).
Proof.
  revert s. induction before as [|post posts IH]; intros s Hall Hbad.
  - cbn. rewrite Hbad. unfold throw. now rewrite appendItems_nil.
  - inversion Hall as [|? ? Hpost Hrest]; subst. cbn. rewrite Hpost.
    unfold bind, modify.
    change (onUi (fun u => setChildren (children u ++ [Item post]) u) s)
      with (appendItems [post] s).
    now rewrite (IH _ Hrest Hbad), appendItems_cons.
Qed.


Lemma failedLoad_throws E out s :
  failedLoad out -> exists e, loadNext_try E out s = (Throw e, s).
Proof.
  destruct out as [e | [|] [[| | | | |]|]]; cbn; intros H;
    try contradiction; eexists; reflexivity.
Qed.

(** X20.  A load whose request fails before anything is rendered (the
    fetch rejects, the status is not OK, the body is not JSON or is null)
    leaves the page number and the done flag as they were, so that the
    next call asks for the same page; the list is no longer loading, the
    status shows the error text, the "load more" button is shown, and the
    list gets the error note unless it already holds one. *)
Theorem load_failure_keeps_page E out s :
  failedLoad out ->
  let s' := loadNext_settle E out s in
  page s' = page s /\ done s' = done s /\ loading s' = false /\
  busyAttribute (ui s') = false /\
  statusText (ui s') = errorText s /\
  moreHidden (ui s') = false /\
  children (ui s') = (if existsb isErrorNote (children (ui s))
                      then children (ui s)
                      else children (ui s) ++ [ErrorNote (errorText s)]) /\
  sameAttributes s s'.
Proof.
  intros Hfail. cbv zeta.
  destruct (failedLoad_throws E out s Hfail) as (e & Htry).
  unfold loadNext_settle, tryCatchFinally. rewrite Htry.
  destruct s as [? ? ? ? [kids ? ? ? ?] ? ? ? ?].
  unfold loadNext_finally, renderError, updateStatus, onUi, sameAttributes. cbn.
  destruct (existsb isErrorNote kids); cbn; repeat split.
Qed.

Lemma load_failure_keeps_page_witness :
  page (loadNext_settle plain (Rejected (Some "TypeError")) busy) = 1 /\
  loading (loadNext_settle plain (Rejected (Some "TypeError")) busy) = false.
Proof.
  destruct (@load_failure_keeps_page plain (Rejected (Some "TypeError")) busy I)
    as (H1 & _ & H3 & _).
  split; assumption.
Defined.

(** X21.  A second failure adds no second error note: [#renderError] run
    twice is [#renderError] run once. *)
Theorem renderError_once s : renderError (renderError s) = renderError s.
Proof.
  destruct s as [? ? ? err [kids ? ? ? ?] ? ? ? ?].
  unfold renderError, updateStatus, onUi. cbn.
  destruct (existsb isErrorNote kids) eqn:Hk; cbn.
  - now rewrite Hk.
  - rewrite existsb_app. cbn. now rewrite orb_true_r.
Qed.

(** The [try] block on a body that is not null, in terms of its items. *)
Lemma try_on_data E data s :
  data <> JNull ->
  loadNext_try E (Responded true (Some data)) s
  = (if (page s =? 1) && (List.length (itemsOf data) =? 0)
     then (Normal tt, setDone true (renderEmpty s))
     else
       match renderItems E (itemsOf data) s with
       | (Normal _, s1) =>
           (Normal tt,
            let s2 :=
              if nothingLeft E data (pageSize s1) (List.length (itemsOf data))
                             (List.length (children (ui s1)))
              then updateStatus "All posts loaded."
                     (onUi (setSentinelHidden true)
                        (onUi (setMoreHidden true) (setDone true s1)))
              else updateStatus EmptyString
                     (onUi (setSentinelHidden false)
                        (onUi (setMoreHidden false) s1)) in
            setPage (page s2 + 1) s2)
       | (Throw e, s1) => (Throw e, s1)
       end).
Proof.
  intros Hdata. unfold itemsOf.
  destruct data; try contradiction; unfold loadNext_try, bind, modify, gets;
    cbv beta iota;
    match goal with
    | |- context [if ?c then _ else _] => destruct c; [reflexivity|]
    end;
    match goal with
    | |- context [renderItems E ?xs s] =>
        destruct (renderItems E xs s) as [[[]|e] s1]; [|reflexivity]
    end;
    destruct (nothingLeft _ _ _ _ _); reflexivity.
Qed.

(** X22.  A page whose posts all render is appended to the list in the
    order of the response and the page number goes up by one; the list is
    done, with the button and the sentinel hidden and the status "All
    posts loaded.", exactly when nothing is left by the totals of the
    response, and otherwise the button and the sentinel are shown. *)
Theorem load_success_appends E data s :
  data <> JNull ->
  page s <> 1 \/ itemsOf data <> [] ->
  Forall (fun post => renderItemThrows E post = false) (itemsOf data) ->
  let s' := loadNext_settle E (Responded true (Some data)) s in
  let last := nothingLeft E data (pageSize s) (List.length (itemsOf data))
                          (List.length (children (ui s))
                           + List.length (itemsOf data)) in
  children (ui s') = children (ui s) ++ map Item (itemsOf data) /\
  page s' = page s + 1 /\
  loading s' = false /\
  done s' = (last || done s) /\
  moreHidden (ui s') = last /\ sentinelHidden (ui s') = last /\
  statusText (ui s') = (if last then "All posts loaded." else EmptyString).
Proof.
  intros Hdata Hsome Hall. cbv zeta.
  unfold loadNext_settle, tryCatchFinally. rewrite (try_on_data E s Hdata).
  assert (Hfirst : (page s =? 1) && (List.length (itemsOf data) =? 0) = false).
  { apply andb_false_iff. destruct Hsome as [H | H].
    - left. now apply Nat.eqb_neq.
    - right. apply Nat.eqb_neq. destruct (itemsOf data); [contradiction | discriminate]. }
  rewrite Hfirst, (renderItems_ok E s Hall).
  destruct s as [? ? ? ? [kids ? ? ? ?] ? ? ? ?].
  unfold appendItems, onUi, loadNext_finally, updateStatus. cbn.
  rewrite length_app, length_map.
  destruct (nothingLeft _ _ _ _ _); cbn; repeat split.
Qed.

Lemma load_success_appends_witness :
  let data := JObj [("items", JArr [JStr "a"; JStr "b"]); ("pageSize", JNum 2)] in
  children (ui (loadNext_settle plain (Responded true (Some data)) busy))
  = [Item (JStr "a"); Item (JStr "b")] /\
  page (loadNext_settle plain (Responded true (Some data)) busy) = 2 /\
  done (loadNext_settle plain (Responded true (Some data)) busy) = false.
Proof.
  intros data.
  destruct (@load_success_appends plain data busy) as (H1 & H2 & _ & H4 & _).
  - discriminate.
  - right. discriminate.
  - repeat constructor.
  - repeat split; assumption.
Defined.



(** X24.  When [#renderItem] throws on a post, the posts before it stay
    in the list, the error is shown after them, and neither the page
    number nor the done flag moves: the next call fetches the same page
    and renders those posts again. *)
Theorem load_partial_render E data before bad after s :
  data <> JNull ->
  itemsOf data = before ++ bad :: after ->
  Forall (fun post => renderItemThrows E post = false) before ->
  renderItemThrows E bad = true ->
  let s' := loadNext_settle E (Responded true (Some data)) s in
  let kids := children (ui s) ++ map Item before in
  children (ui s') = (if existsb isErrorNote kids then kids
                      else kids ++ [ErrorNote (errorText s)]) /\
  page s' = page s /\ done s' = done s /\ loading s' = false /\
  moreHidden (ui s') = false.
Proof.
  intros Hdata Hitems Hbefore Hbad. cbv zeta.
  unfold loadNext_settle, tryCatchFinally. rewrite (try_on_data E s Hdata).
  rewrite Hitems, (@renderItems_throws E before bad after s Hbefore Hbad).
  assert (Hlen : (List.length (before ++ bad :: after) =? 0) = false).
  { rewrite length_app. cbn. apply Nat.eqb_neq. lia. }
  rewrite Hlen, andb_false_r.
  destruct s as [? ? ? ? [kids ? ? ? ?] ? ? ? ?].
  unfold appendItems, onUi, loadNext_finally, renderError, updateStatus. cbn.
  destruct (existsb isErrorNote (kids ++ map Item before)); cbn; repeat split.
Qed.

Lemma load_partial_render_witness :
  let data := JObj [("items", JArr [JStr "a"; JNull; JStr "c"])] in
  children (ui (loadNext_settle plain (Responded true (Some data)) busy))
  = [Item (JStr "a"); ErrorNote "Something went wrong. Please try again."] /\
  page (loadNext_settle plain (Responded true (Some data)) busy) = 1.
Proof.
  intros data.
  destruct (@load_partial_render plain data [JStr "a"] JNull [JStr "c"] busy)
    as (H1 & H2 & _).
  - discriminate.
  - reflexivity.
  - repeat constructor.
  - reflexivity.
  - split; assumption.
Defined.






(** X28.  [reset] does not cancel a load that is in flight: a call of
    [loadNext] made after it is still turned away, and when the pending
    response arrives its posts are rendered into the emptied list and the
    page number goes from 1 to 2. *)
Theorem reset_keeps_pending_load E data s :
  loading s = true ->
  data <> JNull ->
  itemsOf data <> [] ->
  Forall (fun post => renderItemThrows E post = false) (itemsOf data) ->
  loadNext_request E (reset s) = (reset s, None) /\
  (let s' := loadNext_settle E (Responded true (Some data)) (reset s) in
   children (ui s') = map Item (itemsOf data) /\ page s' = 2 /\ loading s' = false).
Proof.
  intros Hload Hdata Hitems Hall. split.
  - unfold loadNext_request.
    change (loading (reset s)) with (loading s). now rewrite Hload.
  - destruct (@load_success_appends E data (reset s) Hdata (or_intror Hitems) Hall)
      as (H1 & H2 & H3 & _).
    cbv zeta. rewrite H1, H2, H3. repeat split.
Qed.

Lemma reset_keeps_pending_load_witness :
  let data := JObj [("items", JArr [JStr "a"; JStr "b"])] in
  page (loadNext_settle plain (Responded true (Some data)) (reset busy)) = 2 /\
  children (ui (loadNext_settle plain (Responded true (Some data)) (reset busy)))
  = [Item (JStr "a"); Item (JStr "b")].
Proof.
  intros data.
  destruct (@reset_keeps_pending_load plain data busy) as (_ & H1 & H2 & _).
  - reflexivity.
  - discriminate.
  - discriminate.
  - repeat constructor.
  - split; assumption.
Defined.

End BlogPostsListMoreFacts.

(** ** Boolean data attributes *)
Module AttributeFacts.

Lemma toLowerChar_toUpperChar c : toLowerChar (toUpperChar c) = toLowerChar c.
Proof. destruct c as [[] [] [] [] [] [] [] []]; reflexivity. Qed.

Lemma toLowerCase_toUpperCase s : toLowerCase (toUpperCase s) = toLowerCase s.
Proof.
  induction s as [|c r IH]; [reflexivity|].
  simpl. now rewrite toLowerChar_toUpperChar, IH.
Qed.



Lemma isEmpty_toUpperCase s : isEmpty (toUpperCase s) = isEmpty s.
Proof. now destruct s. Qed.








(** X27.  [#parseBool] of <accordion-custom> does not look at the case of
    the letters either, but it does not trim: a value with a space in
    front is false, and so are the empty value and the absent
    attribute. *)
Theorem accordion_parseBool_strict v :
  AccordionCustom.parseBool (Some (toUpperCase v)) = AccordionCustom.parseBool (Some v) /\
  AccordionCustom.parseBool (Some (String " " v)) = false /\
  AccordionCustom.parseBool (Some EmptyString) = false /\
  AccordionCustom.parseBool None = false.
Proof.
  unfold AccordionCustom.parseBool. repeat split.
  now rewrite isEmpty_toUpperCase, toLowerCase_toUpperCase.
Qed.

End AttributeFacts.
